(** * Gravity: error classification, executor dispatch, OpenEBS
      configuration and command-line reconstruction

    A shallow embedding of the Go sources

      - lib/utils/error.go                    (module [utils])
      - lib/install/fsmspec.go                (module [install])
      - lib/storage/persistentstorage.go      (module [storage])
      - lib/install/phases (openebs executor) (module [phases])
      - tool/gravity/cli (utilities)          (module [cli])

    Go strings are byte strings ([string]); Go [int] values that are only
    stored and compared are [Z]; a nilable [error] is [option error]. *)

From Stdlib Require Import ZArith Lia Strings.Ascii Numbers.DecimalString.
From stdpp Require Import base list strings gmap.

Local Open Scope string_scope.
Local Open Scope list_scope.

(** ** Go standard library: package strings, strconv and fmt verbs *)

Module strings.

(** [strings.HasPrefix(s, prefix)]. *)
Fixpoint HasPrefix (s prefix : string) : bool :=
  match prefix, s with
  | EmptyString, _ => true
  | String _ _, EmptyString => false
  | String c prefix', String d s' =>
      if Ascii.eqb c d then HasPrefix s' prefix' else false
  end.

(** [strings.Contains(s, substr)]: some suffix of [s] starts with
    [substr]. *)
Fixpoint Contains (s substr : string) : bool :=
  HasPrefix s substr ||
  match s with
  | EmptyString => false
  | String _ s' => Contains s' substr
  end.

(** [strings.Join(elems, sep)]. *)
Fixpoint Join (elems : list string) (sep : string) : string :=
  match elems with
  | [] => ""
  | [x] => x
  | x :: (_ :: _) as rest => x +:+ sep +:+ Join rest sep
  end.

(** The loop of [strings.Split] for a non-empty separator: [skip] counts
    the bytes of a separator occurrence still to be dropped, [cur] is the
    field read so far. *)
Fixpoint splitFrom (sep : string) (skip : nat) (cur s : string)
  : list string :=
  match s with
  | EmptyString => [cur]
  | String c s' =>
      match skip with
      | S k => splitFrom sep k cur s'
      | O =>
          if HasPrefix s sep
          then cur :: splitFrom sep (String.length sep - 1) "" s'
          else splitFrom sep 0 (cur +:+ String c "") s'
      end
  end.

(** [strings.Split(s, "")]: one field per byte (per UTF-8 sequence in
    Go; the two agree on ASCII). *)
Fixpoint explode (s : string) : list string :=
  match s with
  | EmptyString => []
  | String c s' => String c "" :: explode s'
  end.

(** [strings.Split(s, sep)]. *)
Definition Split (s sep : string) : list string :=
  match sep with
  | EmptyString => explode s
  | _ => splitFrom sep 0 "" s
  end.

End strings.

Module strconv.

Definition lowerhex (n : N) : ascii :=
  match n with
  | 0%N => "0" | 1%N => "1" | 2%N => "2" | 3%N => "3" | 4%N => "4"
  | 5%N => "5" | 6%N => "6" | 7%N => "7" | 8%N => "8" | 9%N => "9"
  | 10%N => "a" | 11%N => "b" | 12%N => "c" | 13%N => "d" | 14%N => "e"
  | _ => "f"
  end%char.

(** One byte of [strconv.Quote]: the quote and the backslash are
    escaped, printable ASCII is kept, the control characters get their
    letter and the other bytes below 0x20, and 0x7f, are written [\xNN].
    Bytes from 0x80 on, which Go reads as parts of a UTF-8 sequence,
    are kept. *)
Definition quoteByte (c : ascii) : string :=
  let n := Ascii.N_of_ascii c in
  if (n =? 34)%N then "\" +:+ String c ""
  else if (n =? 92)%N then "\\"
  else if (n =? 7)%N then "\a"
  else if (n =? 8)%N then "\b"
  else if (n =? 12)%N then "\f"
  else if (n =? 10)%N then "\n"
  else if (n =? 13)%N then "\r"
  else if (n =? 9)%N then "\t"
  else if (n =? 11)%N then "\v"
  else if ((n <? 32) || (n =? 127))%N
       then "\x" +:+ String (lowerhex (N.shiftr n 4))
                      (String (lowerhex (N.land n 15)) "")
  else String c "".

Fixpoint quoteBody (s : string) : string :=
  match s with
  | EmptyString => ""
  | String c s' => quoteByte c +:+ quoteBody s'
  end.

(** The double quote character. *)
Definition dquote : ascii := Ascii.ascii_of_N 34.

(** [strconv.Quote(s)], also what the verb [%q] prints for a string. *)
Definition Quote (s : string) : string :=
  String dquote (quoteBody s +:+ String dquote "").

(** [strconv.Itoa], also what [%v] prints for an [int]. *)
Definition Itoa (n : Z) : string :=
  NilZero.string_of_int (Z.to_int n).

End strconv.

(** ** Error values

    The dynamic types an [error] interface value takes in the embedded
    code: the sentinels [context.Canceled] and [os.ErrNotExist], plain
    [errors.New] values, the wrappers and typed errors of
    gravitational/trace, the Kubernetes API status error, the etcd
    client's cluster error, [backoff.PermanentError] and this
    repository's [exitCodeError]. *)

(** [metav1.Status], as far as the code reads it; [Details] is the
    rendering of the status details, empty when there are none. *)
Record Status := {
  Code : Z;
  Reason : string;
  StatusMessage : string;
  Details : string
}.

#[warnings="-register-all"]
Inductive error : Type :=
| Canceled
| ErrNotExist
| errorString (s : string)
| TraceErr (Err : error) (Message : string)
| ConnectionProblemError (Message : string) (Err : option error)
| NotFoundError (Message : string)
| AlreadyExistsError (Message : string)
| AccessDeniedError (Message : string)
| BadParameterError (Message : string)
| StatusError (ErrStatus : Status)
| ClusterError (Errors : list string)
| PermanentError (Err : error)
| exitCodeError (code : Z) (message : string) (err : option error).

(** [e == context.Canceled] for a nilable error [e]: identity with the
    sentinel. *)
Definition isCanceled (e : option error) : bool :=
  match e with
  | Some Canceled => true
  | _ => false
  end.

(** The [Error()] method of each dynamic type. [TraceErr] prints its user
    message (the process is not in trace debug mode). *)
Fixpoint Error (e : error) : string :=
  match e with
  | Canceled => "context canceled"
  | ErrNotExist => "file does not exist"
  | errorString s => s
  | TraceErr Err Message =>
      if decide (Message = "") then Error Err else Message
  | ConnectionProblemError Message Err =>
      match Err with
      | None => Message
      | Some e' => Error e'
      end
  | NotFoundError Message =>
      if decide (Message = "") then "object not found" else Message
  | AlreadyExistsError Message =>
      if decide (Message = "") then "object already exists" else Message
  | AccessDeniedError Message =>
      if decide (Message = "") then "access denied" else Message
  | BadParameterError Message => Message
  | StatusError st => StatusMessage st
  | ClusterError Errors =>
      "client: etcd cluster is unavailable or misconfigured" +:+
      String.concat ""
        (imap (fun i m =>
                 "; error #" +:+ strconv.Itoa (Z.of_nat i) +:+ ": " +:+ m
                 +:+ String (Ascii.ascii_of_N 10) "") Errors)
  | PermanentError Err => Error Err
  | exitCodeError code message err =>
      match err with
      | Some e' => Error e'
      | None =>
          if decide (message = "")
          then "exit with code " +:+ strconv.Itoa code
          else message
      end
  end.

(** ** gravitational/trace *)

Module trace.

(** [trace.Unwrap]: the original error below the [TraceErr] wrappers. *)
Fixpoint Unwrap' (e : error) : error :=
  match e with
  | TraceErr Err _ => Unwrap' Err
  | _ => e
  end.

Definition Unwrap (err : option error) : option error :=
  Unwrap' <$> err.

(** [trace.Wrap(err)]: nil stays nil, a trace error is returned as it
    is, any other error gets a [TraceErr] around it. *)
Definition Wrap' (e : error) : error :=
  match e with
  | TraceErr _ _ => e
  | _ => TraceErr e ""
  end.

Definition Wrap (err : option error) : option error :=
  Wrap' <$> err.

(** [trace.UserMessage(err)]. *)
Definition UserMessage (err : option error) : string :=
  match err with
  | None => ""
  | Some (TraceErr Err Message) =>
      if decide (Message = "") then Error Err else Message
  | Some e => Error e
  end.

Definition NotFound (message : string) : error :=
  TraceErr (NotFoundError message) "".
Definition AlreadyExists (message : string) : error :=
  TraceErr (AlreadyExistsError message) "".
Definition AccessDenied (message : string) : error :=
  TraceErr (AccessDeniedError message) "".
Definition BadParameter (message : string) : error :=
  TraceErr (BadParameterError message) "".

(** [trace.IsConnectionProblem(e)]. *)
Definition IsConnectionProblem (e : option error) : bool :=
  match Unwrap e with
  | Some (ConnectionProblemError _ _) => true
  | _ => false
  end.

(** [trace.IsNotFound(e)]: a [NotFoundError] below the wrappers, or what
    [os.IsNotExist] accepts. *)
Definition IsNotFound (e : option error) : bool :=
  match Unwrap e with
  | Some (NotFoundError _) => true
  | Some ErrNotExist => true
  | _ => false
  end.

(** [trace.IsBadParameter(e)]. *)
Definition IsBadParameter (e : option error) : bool :=
  match Unwrap e with
  | Some (BadParameterError _) => true
  | _ => false
  end.

End trace.

(** ** lib/utils/error.go *)

Module utils.

Definition isEtcdClusterMisconfigured (message : string) : bool :=
  strings.Contains message "etcd cluster is unavailable or misconfigured".

Definition isEtcdClusterHasNoLeader (message : string) : bool :=
  strings.Contains message "etcd member" &&
  strings.Contains message "has no leader".

Definition isEtcdClusterErrorMessage (message : string) : bool :=
  isEtcdClusterMisconfigured message || isEtcdClusterHasNoLeader message.

(** IsClusterUnavailableError determines if the specified error is a
    cluster unavailable error. *)
Definition IsClusterUnavailableError (err : option error) : bool :=
  isEtcdClusterErrorMessage (trace.UserMessage err).

Definition isKubernetesEtcdClusterError (err : option error) : bool :=
  match trace.Unwrap err with
  | Some (StatusError st) =>
      (Code st =? 500)%Z && isEtcdClusterErrorMessage (StatusMessage st)
  | _ => false
  end.

Definition isEtcdClusterError (err : option error) : bool :=
  match trace.Unwrap err with
  | Some (ClusterError _) => true
  | _ => false
  end.

(** IsConnectionResetError; [err] is expected to be non-nil (the
    method call on the unwrapped value panics on nil). *)
Definition IsConnectionResetError (err : error) : bool :=
  strings.Contains (Error (trace.Unwrap' err)) "connection reset by peer".

(** IsConnectionRefusedError; [err] is expected to be non-nil. *)
Definition IsConnectionRefusedError (err : error) : bool :=
  strings.Contains (Error (trace.Unwrap' err)) "connection refused".

(** IsTransientClusterError: the [switch] tries its cases in order. *)
Definition IsTransientClusterError (err : option error) : bool :=
  match err with
  | None => false
  | Some e =>
      if trace.IsConnectionProblem err then true
      else if IsConnectionResetError e then true
      else if IsConnectionRefusedError e then true
      else if IsClusterUnavailableError err || isEtcdClusterError err
           then true
      else if isKubernetesEtcdClusterError err then true
      else false
  end.

(** IsContextCancelledError returns true if the provided error is a
    result of a context cancellation. *)
Definition IsContextCancelledError (err : option error) : bool :=
  let origErr := trace.Unwrap err in
  if isCanceled origErr then true
  else match origErr with
       | Some (ConnectionProblemError _ connErr) => isCanceled connErr
       | _ => false
       end.

Definition isPeerDeniedError (message : string) : bool :=
  strings.Contains message "peer not authorized".

Definition isLicenseError (message : string) : bool :=
  strings.Contains message "license allows maximum of".

Definition isHostAlreadyRegisteredError (message : string) : bool :=
  strings.Contains message "One of existing peers already has hostname" ||
  strings.Contains message "One of existing servers already has hostname".

(** The three permanent classifications of a message. *)
Definition permanentMessage (message : string) : Prop :=
  strings.Contains message "peer not authorized" = true
  \/ strings.Contains message "license allows maximum of" = true
  \/ (strings.Contains message "One of existing peers already has hostname"
        = true
      \/ strings.Contains message
           "One of existing servers already has hostname" = true).

(** ShouldReconnectPeer; [err.Error()] is called first, so [err] is
    non-nil. *)
Definition ShouldReconnectPeer (err : error) : error :=
  if isPeerDeniedError (Error err)
     || isLicenseError (Error err)
     || isHostAlreadyRegisteredError (Error err)
  then PermanentError err
  else err.

(** NewExitCodeError returns a new error with the specified exit code. *)
Definition NewExitCodeError (exitCode : Z) : option error :=
  if (exitCode =? 0)%Z then None
  else Some (exitCodeError exitCode "" None).

Definition NewExitCodeErrorWithMessage (exitCode : Z) (message : string)
  : error :=
  exitCodeError exitCode message None.

(** WrapExitCodeError returns a new error with the specified exit code
    that wraps another error. *)
Definition WrapExitCodeError (exitCode : Z) (err : option error) : error :=
  exitCodeError exitCode "" err.

(** The interface [ExitCodeError]: what its three methods return. *)
Record ExitCodeError := {
  Error_ : string;
  ExitCode : Z;
  OrigError : error
}.

(** The type assertion [e.(ExitCodeError)]: of the dynamic types above
    only [exitCodeError] has the method [ExitCode]; the record holds the
    results of its methods [Error], [ExitCode] and [OrigError]. *)
Definition asExitCodeError (e : error) : option ExitCodeError :=
  match e with
  | exitCodeError code message err =>
      Some {| Error_ := Error e;
              ExitCode := code;
              OrigError := match err with
                           | None => e
                           | Some e' => e'
                           end |}
  | _ => None
  end.

(** IsKubeAuthError determines whether the specified error is an
    authorization error from kubernetes client. *)
Definition IsKubeAuthError (err : option error) : bool :=
  match trace.Unwrap err with
  | Some (StatusError st) => (Code st =? 401)%Z
  | _ => false
  end.

End utils.

(** ** lib/install/fsmspec.go *)

Module install.

(** The phase identifiers of package [phases], which the resolver
    compares with; the package's constants are not part of the sources
    at hand, so the resolver takes them as a parameter. *)
Record PhaseNames := {
  InitPhase : string;
  ChecksPhase : string;
  ConfigurePhase : string;
  BootstrapPhase : string;
  PullPhase : string;
  MastersPhase : string;
  NodesPhase : string;
  WaitPhase : string;
  HealthPhase : string;
  RBACPhase : string;
  CorednsPhase : string;
  SystemResourcesPhase : string;
  UserResourcesPhase : string;
  ExportPhase : string;
  RuntimePhase : string;
  AppPhase : string;
  ConnectInstallerPhase : string;
  EnableElectionPhase : string;
  InstallOverlayPhase : string;
  GravityResourcesPhase : string
}.

(** [fsm.ExecutorParams], as far as the resolver reads it: [p.Phase.ID]
    and [p.Plan.DNSConfig.Addr()]. *)
Record ExecutorParams := {
  PhaseID : string;
  PlanDNSAddr : string
}.

(** The executor factories of package [phases]. *)
Inductive Factory :=
| NewInit | NewChecks | NewConfigure | NewBootstrap | NewPull | NewSystem
| NewWait | NewHealth | NewRBAC | NewCorednsPhase | NewSystemResources
| NewUserResources | NewExport | NewApp | NewConnectInstaller
| NewEnableElectionPhase | NewHook | NewGravityResourcesPhase.

Section Resolver.

(** Handles of the collaborators built during resolution. *)
Variables (Clientset OperatorClient ResourceFactory : Type).

(** What a factory is called with besides the executor parameters:
    fields of the [FSMConfig], the [remote] argument, or a
    collaborator built on the way. *)
Inductive Arg :=
| Operator | Apps | Packages | OperationKey | LocalBackend
| LocalPackages | LocalApps
| Remote
| HookNetworkInstall
| KubeClient (client : Clientset)
| LocalOperator (operator : OperatorClient)
| Resources (factory : ResourceFactory).

(** The outcome of resolving a phase: the factory call that yields the
    executor, or the error returned instead. *)
Inductive Resolution :=
| Invoke (f : Factory) (p : ExecutorParams) (args : list Arg)
| Fail (err : error).

Variable names : PhaseNames.
(** [httplib.GetClusterKubeClient(addr)]: the client and the error. *)
Variable GetClusterKubeClient : string -> Clientset * option error.
(** [config.LocalClusterClient()]. *)
Variable LocalClusterClient : OperatorClient * option error.
(** [gravity.New(gravity.Config{Operator: operator})]. *)
Variable gravityNew : OperatorClient -> ResourceFactory * option error.

Definition getKubeClient (p : ExecutorParams)
  : Clientset * option error :=
  let '(client, err) := GetClusterKubeClient (PlanDNSAddr p) in
  (client, trace.Wrap err).

(** The cases that build the cluster's Kubernetes client first:
    [client, err := getKubeClient(p)], and
    [return nil, trace.Wrap(err)] when that fails. *)
Definition withKubeClient (p : ExecutorParams)
    (k : Clientset -> Resolution) : Resolution :=
  match getKubeClient p with
  | (_, Some err) => Fail (trace.Wrap' err)
  | (client, None) => k client
  end.

(** FSMSpec returns a function that returns an appropriate phase
    executor based on the provided params. *)
Definition FSMSpec (p : ExecutorParams) : Resolution :=
  let ID := PhaseID p in
  if strings.HasPrefix ID (InitPhase names) then
    Invoke NewInit p [Operator; Apps; Packages]
  else if String.eqb ID (ChecksPhase names) then
    Invoke NewChecks p [Operator; OperationKey]
  else if String.eqb ID (ConfigurePhase names) then
    Invoke NewConfigure p [Operator]
  else if strings.HasPrefix ID (BootstrapPhase names) then
    Invoke NewBootstrap p [Operator; Apps; LocalBackend; Remote]
  else if strings.HasPrefix ID (PullPhase names) then
    Invoke NewPull p
      [Operator; Packages; LocalPackages; Apps; LocalApps; Remote]
  else if strings.HasPrefix ID (MastersPhase names)
          || strings.HasPrefix ID (NodesPhase names) then
    Invoke NewSystem p [Operator; Remote]
  else if String.eqb ID (WaitPhase names) then
    withKubeClient p (fun client =>
      Invoke NewWait p [Operator; KubeClient client])
  else if String.eqb ID (HealthPhase names) then
    Invoke NewHealth p [Operator]
  else if String.eqb ID (RBACPhase names) then
    withKubeClient p (fun client =>
      Invoke NewRBAC p [Operator; LocalApps; KubeClient client])
  else if String.eqb ID (CorednsPhase names) then
    withKubeClient p (fun client =>
      Invoke NewCorednsPhase p [Operator; KubeClient client])
  else if String.eqb ID (SystemResourcesPhase names) then
    withKubeClient p (fun client =>
      Invoke NewSystemResources p [Operator; KubeClient client])
  else if String.eqb ID (UserResourcesPhase names) then
    Invoke NewUserResources p [Operator]
  else if strings.HasPrefix ID (ExportPhase names) then
    Invoke NewExport p [Operator; LocalPackages; LocalApps; Remote]
  else if strings.HasPrefix ID (RuntimePhase names)
          || strings.HasPrefix ID (AppPhase names) then
    Invoke NewApp p [Operator; LocalApps]
  else if String.eqb ID (ConnectInstallerPhase names) then
    Invoke NewConnectInstaller p [Operator]
  else if strings.HasPrefix ID (EnableElectionPhase names) then
    Invoke NewEnableElectionPhase p [Operator]
  else if strings.HasPrefix ID (InstallOverlayPhase names) then
    Invoke NewHook p [Operator; LocalApps; HookNetworkInstall]
  else if strings.HasPrefix ID (GravityResourcesPhase names) then
    match LocalClusterClient with
    | (_, Some err) => Fail (trace.Wrap' err)
    | (operator, None) =>
        match gravityNew operator with
        | (_, Some err) => Fail (trace.Wrap' err)
        | (factory, None) =>
            Invoke NewGravityResourcesPhase p
              [LocalOperator operator; Resources factory]
        end
    end
  else
    Fail (trace.BadParameter ("unknown phase " +:+ strconv.Quote ID)).

(** *** The routing table of the specification

    An ordered table of prefix-or-exact matchers with the factory
    each one selects; the first matching entry wins. *)
Inductive Matcher :=
| Prefix (s : string)
| Exact (s : string).

Definition matches (m : Matcher) (ID : string) : bool :=
  match m with
  | Prefix s => strings.HasPrefix ID s
  | Exact s => String.eqb ID s
  end.

Definition table : list (Matcher * Factory) :=
  [ (Prefix (InitPhase names), NewInit);
    (Exact (ChecksPhase names), NewChecks);
    (Exact (ConfigurePhase names), NewConfigure);
    (Prefix (BootstrapPhase names), NewBootstrap);
    (Prefix (PullPhase names), NewPull);
    (Prefix (MastersPhase names), NewSystem);
    (Prefix (NodesPhase names), NewSystem);
    (Exact (WaitPhase names), NewWait);
    (Exact (HealthPhase names), NewHealth);
    (Exact (RBACPhase names), NewRBAC);
    (Exact (CorednsPhase names), NewCorednsPhase);
    (Exact (SystemResourcesPhase names), NewSystemResources);
    (Exact (UserResourcesPhase names), NewUserResources);
    (Prefix (ExportPhase names), NewExport);
    (Prefix (RuntimePhase names), NewApp);
    (Prefix (AppPhase names), NewApp);
    (Exact (ConnectInstallerPhase names), NewConnectInstaller);
    (Prefix (EnableElectionPhase names), NewEnableElectionPhase);
    (Prefix (InstallOverlayPhase names), NewHook);
    (Prefix (GravityResourcesPhase names), NewGravityResourcesPhase) ].

Fixpoint firstMatch (t : list (Matcher * Factory)) (ID : string)
  : option Factory :=
  match t with
  | [] => None
  | (m, f) :: t' => if matches m ID then Some f else firstMatch t' ID
  end.

(** No entry of the table matches the identifier. *)
Definition unmatched (ID : string) : bool :=
  forallb (fun entry => negb (matches (fst entry) ID)) table.

(** The factory a resolution went to, if it reached one. *)
Definition resolvedFactory (r : Resolution) : option Factory :=
  match r with
  | Invoke f _ _ => Some f
  | Fail _ => None
  end.

End Resolver.

Arguments Invoke {Clientset OperatorClient ResourceFactory}.
Arguments Fail {Clientset OperatorClient ResourceFactory}.
Arguments Operator {Clientset OperatorClient ResourceFactory}.
Arguments Remote {Clientset OperatorClient ResourceFactory}.
Arguments OperationKey {Clientset OperatorClient ResourceFactory}.
Arguments resolvedFactory {Clientset OperatorClient ResourceFactory}.

(** Two phase families are distinct when neither name is a prefix of
    the other: no identifier then belongs to both. *)
Definition distinctFamilies (a b : string) : bool :=
  negb (strings.HasPrefix a b) && negb (strings.HasPrefix b a).

(** No entry above the masters and nodes entries takes an identifier
    of these two families, and the prefix entry above the checks entry
    does not take the checks identifier. *)
Definition unshadowed (names : PhaseNames) : bool :=
  forallb (fun family =>
             distinctFamilies (InitPhase names) family
             && distinctFamilies (BootstrapPhase names) family
             && distinctFamilies (PullPhase names) family
             && negb (strings.HasPrefix (ChecksPhase names) family)
             && negb (strings.HasPrefix (ConfigurePhase names) family))
          [MastersPhase names; NodesPhase names]
  && negb (strings.HasPrefix (ChecksPhase names) (InitPhase names)).

(** The factories whose case builds a client first and returns the
    wrapped error when that fails. *)
Definition needsClient (f : Factory) : bool :=
  match f with
  | NewWait | NewRBAC | NewCorednsPhase | NewSystemResources
  | NewGravityResourcesPhase => true
  | _ => false
  end.

(** Phase names for the scenarios below: the families "masters" and
    "nodes" and the exact identifier "checks" of the specification, and
    for the other phases the names of their constants. *)
Definition scenarioNames : PhaseNames :=
  {| InitPhase := "init";
     ChecksPhase := "checks";
     ConfigurePhase := "configure";
     BootstrapPhase := "bootstrap";
     PullPhase := "pull";
     MastersPhase := "masters";
     NodesPhase := "nodes";
     WaitPhase := "wait";
     HealthPhase := "health";
     RBACPhase := "rbac";
     CorednsPhase := "coredns";
     SystemResourcesPhase := "system-resources";
     UserResourcesPhase := "user-resources";
     ExportPhase := "export";
     RuntimePhase := "runtime";
     AppPhase := "app";
     ConnectInstallerPhase := "connect-installer";
     EnableElectionPhase := "election";
     InstallOverlayPhase := "overlay";
     GravityResourcesPhase := "gravity-resources" |}.

(** The resolver of the scenarios: the clients are built without
    error. *)
Definition scenarioSpec : ExecutorParams -> Resolution unit unit unit :=
  FSMSpec unit unit unit scenarioNames
    (fun _ => (tt, None)) (tt, None) (fun _ => (tt, None)).

End install.

(** ** lib/storage/persistentstorage.go *)

Module storage.

Record OpenEBSFilter := {
  Include : list string;
  Exclude : list string
}.

Record OpenEBSFilters := {
  MountPoints : OpenEBSFilter;
  Vendors : OpenEBSFilter;
  Devices : OpenEBSFilter
}.

Record OpenEBS := { Filters : OpenEBSFilters }.

Record PersistentStorageSpecV1 := { OpenEBS_ : OpenEBS }.

(** The resource behind the interface [PersistentStorage]; its kind,
    version and metadata are not read by the code below. *)
Record PersistentStorageV1 := { Spec : PersistentStorageSpecV1 }.

Definition GetMountExcludes (ps : PersistentStorageV1) : list string :=
  Exclude (MountPoints (Filters (OpenEBS_ (Spec ps)))).
Definition GetVendorIncludes (ps : PersistentStorageV1) : list string :=
  Include (Vendors (Filters (OpenEBS_ (Spec ps)))).
Definition GetVendorExcludes (ps : PersistentStorageV1) : list string :=
  Exclude (Vendors (Filters (OpenEBS_ (Spec ps)))).
Definition GetDeviceIncludes (ps : PersistentStorageV1) : list string :=
  Include (Devices (Filters (OpenEBS_ (Spec ps)))).
Definition GetDeviceExcludes (ps : PersistentStorageV1) : list string :=
  Exclude (Devices (Filters (OpenEBS_ (Spec ps)))).

Record NDMProbe := {
  ProbeName : string;
  ProbeKey : string;
  ProbeState : bool
}.

(** [NDMFilter]; its fields [Include] and [Exclude] are comma-separated
    strings. *)
Record NDMFilter := {
  Name : string;
  Key : string;
  State : bool;
  FilterInclude : string;
  FilterExclude : string
}.

Record NDMConfig := {
  ProbeConfigs : list NDMProbe;
  FilterConfigs : list NDMFilter
}.

(** The zero value [NDMFilter{}]. *)
Definition zeroFilter : NDMFilter :=
  {| Name := ""; Key := ""; State := false;
     FilterInclude := ""; FilterExclude := "" |}.

(** *** The store

    The methods have a pointer receiver [c *NDMConfig] and pass
    [*NDMFilter] pointers around, so they run on a store: the
    configuration [c] points to, and the [NDMFilter] variables that
    were given an address, a pointer being an index among them. *)
Record Store := {
  config : NDMConfig;
  vars : list NDMFilter
}.

Definition Ptr := nat.

(** Computations on the store. *)
Definition M (A : Type) : Type := Store -> A * Store.

Definition ret {A} (a : A) : M A := fun σ => (a, σ).

Definition bind {A B} (m : M A) (k : A -> M B) : M B :=
  fun σ => let '(a, σ') := m σ in k a σ'.

Notation "x <- m ;; k" := (bind m (fun x => k))
  (at level 100, m at next level, right associativity).
Notation "m ;;; k" := (bind m (fun _ => k))
  (at level 100, right associativity).

(** A new variable holding [v]; its address. *)
Definition new (v : NDMFilter) : M Ptr :=
  fun σ => (length (vars σ),
            {| config := config σ; vars := vars σ ++ [v] |}).

(** [*p]. *)
Definition load (p : Ptr) : M NDMFilter :=
  fun σ => (default zeroFilter (vars σ !! p), σ).

(** [*p = v]. *)
Definition store (p : Ptr) (v : NDMFilter) : M unit :=
  fun σ => (tt, {| config := config σ; vars := <[p := v]> (vars σ) |}).

(** [c.FilterConfigs]. *)
Definition filterConfigs : M (list NDMFilter) :=
  fun σ => (FilterConfigs (config σ), σ).

(** The loop of [getFilter]: [filter] is the loop's variable, a copy of
    the element. *)
Fixpoint findFilter (key : string) (filters : list NDMFilter)
  : option NDMFilter :=
  match filters with
  | [] => None
  | filter :: rest =>
      if String.eqb (Key filter) key then Some filter
      else findFilter key rest
  end.

(** [getFilter]: [return &filter] is the address of the loop variable,
    which holds a copy of the matching element of [c.FilterConfigs];
    with no match, the address of a new zero filter. *)
Definition getFilter (key : string) : M Ptr :=
  filters <- filterConfigs ;;
  match findFilter key filters with
  | Some filter => new filter
  | None => new zeroFilter
  end.

Definition setExclude (f : NDMFilter) (s : string) : NDMFilter :=
  {| Name := Name f; Key := Key f; State := State f;
     FilterInclude := FilterInclude f; FilterExclude := s |}.

Definition setInclude (f : NDMFilter) (s : string) : NDMFilter :=
  {| Name := Name f; Key := Key f; State := State f;
     FilterInclude := s; FilterExclude := FilterExclude f |}.

(** [c.getFilter(key).Exclude]. *)
Definition readExclude (key : string) : M string :=
  p <- getFilter key ;; f <- load p ;; ret (FilterExclude f).

Definition readInclude (key : string) : M string :=
  p <- getFilter key ;; f <- load p ;; ret (FilterInclude f).

(** [c.getFilter(key).Exclude = s]. *)
Definition writeExclude (key s : string) : M unit :=
  p <- getFilter key ;; f <- load p ;; store p (setExclude f s).

Definition writeInclude (key s : string) : M unit :=
  p <- getFilter key ;; f <- load p ;; store p (setInclude f s).

Definition MountExcludes : M (list string) :=
  s <- readExclude "os-disk-exclude-filter" ;; ret (strings.Split s ",").

Definition SetMountExcludes (excludes : list string) : M unit :=
  writeExclude "os-disk-exclude-filter" (strings.Join excludes ",").

Definition VendorExcludes : M (list string) :=
  s <- readExclude "vendor-filter" ;; ret (strings.Split s ",").

Definition SetVendorExcludes (excludes : list string) : M unit :=
  writeExclude "vendor-filter" (strings.Join excludes ",").

Definition VendorIncludes : M (list string) :=
  s <- readInclude "vendor-filter" ;; ret (strings.Split s ",").

Definition SetVendorIncludes (includes : list string) : M unit :=
  writeInclude "vendor-filter" (strings.Join includes ",").

Definition DeviceExcludes : M (list string) :=
  s <- readExclude "path-filter" ;; ret (strings.Split s ",").

Definition SetDeviceExcludes (excludes : list string) : M unit :=
  writeExclude "path-filter" (strings.Join excludes ",").

Definition DeviceIncludes : M (list string) :=
  s <- readInclude "path-filter" ;; ret (strings.Split s ",").

Definition SetDeviceIncludes (includes : list string) : M unit :=
  writeInclude "path-filter" (strings.Join includes ",").

Definition defaultMountExcludes : list string :=
  ["/"; "/etc/hosts"; "/boot"].
Definition defaultVendorExcludes : list string :=
  ["CLOUDBYT"; "OpenEBS"].
Definition defaultDeviceExcludes : list string :=
  ["loop"; "/dev/fd0"; "/dev/sr0"; "/dev/ram"; "/dev/dm-"; "/dev/md"].

Definition DefaultNDMConfig : NDMConfig :=
  {| ProbeConfigs :=
       [ {| ProbeName := "udev probe"; ProbeKey := "udev-probe";
            ProbeState := true |};
         {| ProbeName := "searchest probe"; ProbeKey := "searchest-probe";
            ProbeState := false |};
         {| ProbeName := "smart probe"; ProbeKey := "smart-probe";
            ProbeState := true |} ];
     FilterConfigs :=
       [ {| Name := "os disk exclude filter";
            Key := "os-disk-exclude-filter";
            State := true;
            FilterInclude := "";
            FilterExclude := strings.Join defaultMountExcludes "," |};
         {| Name := "vendor filter";
            Key := "vendor-filter";
            State := true;
            FilterInclude := "";
            FilterExclude := strings.Join defaultVendorExcludes "," |};
         {| Name := "path filter";
            Key := "path-filter";
            State := true;
            FilterInclude := "";
            FilterExclude := strings.Join defaultDeviceExcludes "," |} ] |}.

(** The store right after [c := DefaultNDMConfig()]. *)
Definition initial (c : NDMConfig) : Store :=
  {| config := c; vars := [] |}.

(** Apply applies parameters from the provided resource to this
    configuration. *)
Definition Apply (ps : PersistentStorageV1) : M unit :=
  SetMountExcludes (GetMountExcludes ps) ;;;
  SetVendorIncludes (GetVendorIncludes ps) ;;;
  SetVendorExcludes (GetVendorExcludes ps) ;;;
  SetDeviceIncludes (GetDeviceIncludes ps) ;;;
  SetDeviceExcludes (GetDeviceExcludes ps).

(** The five read-backs, in the order of the persistent-storage
    getters. *)
Definition readBack : M (list (list string)) :=
  a <- MountExcludes ;;
  b <- VendorIncludes ;;
  c <- VendorExcludes ;;
  d <- DeviceIncludes ;;
  e <- DeviceExcludes ;;
  ret [a; b; c; d; e].

Definition requested (ps : PersistentStorageV1) : list (list string) :=
  [ GetMountExcludes ps; GetVendorIncludes ps; GetVendorExcludes ps;
    GetDeviceIncludes ps; GetDeviceExcludes ps ].

Definition NewPersistentStorage (spec : PersistentStorageSpecV1)
  : PersistentStorageV1 :=
  {| Spec := spec |}.

(** PersistentStorageFromNDMConfig: the resource read off the
    configuration, the getters being called in the order of the
    composite literal. *)
Definition PersistentStorageFromNDMConfig : M PersistentStorageV1 :=
  mountExcludes <- MountExcludes ;;
  vendorExcludes <- VendorExcludes ;;
  vendorIncludes <- VendorIncludes ;;
  deviceExcludes <- DeviceExcludes ;;
  deviceIncludes <- DeviceIncludes ;;
  ret (NewPersistentStorage
         {| OpenEBS_ :=
              {| Filters :=
                   {| MountPoints :=
                        {| Include := []; Exclude := mountExcludes |};
                      Vendors :=
                        {| Include := vendorIncludes;
                           Exclude := vendorExcludes |};
                      Devices :=
                        {| Include := deviceIncludes;
                           Exclude := deviceExcludes |} |} |} |}).

(** A filter with its exclude list replaced by the default one when it is
    empty. *)
Definition defaultExclude (defaults : list string) (f : OpenEBSFilter)
  : OpenEBSFilter :=
  if decide (length (Exclude f) = 0)
  then {| Include := Include f; Exclude := defaults |}
  else f.

Section CheckAndSetDefaults.

(** The metadata of the resource is teleport's [services.Metadata]; of
    it the code reads and sets the name and calls its own
    CheckAndSetDefaults, which may change it and may fail. *)
Variable Metadata : Type.
Variable MetadataName : Metadata -> string.
Variable SetMetadataName : string -> Metadata -> Metadata.
Variable MetadataCheckAndSetDefaults : Metadata -> Metadata * option error.
(** The constant [KindPersistentStorage]. *)
Variable KindPersistentStorage : string.

(** CheckAndSetDefaults on the metadata and the specification of a
    resource: both as the call leaves them, and the returned error. *)
Definition CheckAndSetDefaults (metadata : Metadata)
    (ps : PersistentStorageV1)
  : Metadata * PersistentStorageV1 * option error :=
  let metadata :=
    if decide (MetadataName metadata = "")
    then SetMetadataName KindPersistentStorage metadata
    else metadata in
  match MetadataCheckAndSetDefaults metadata with
  | (metadata, Some err) => (metadata, ps, Some (trace.Wrap' err))
  | (metadata, None) =>
      let filters := Filters (OpenEBS_ (Spec ps)) in
      (metadata,
       {| Spec :=
            {| OpenEBS_ :=
                 {| Filters :=
                      {| MountPoints :=
                           defaultExclude ["/"; "/etc/hosts"; "/boot"]
                             (MountPoints filters);
                         Vendors :=
                           defaultExclude ["CLOUDBYT"; "OpenEBS"]
                             (Vendors filters);
                         Devices :=
                           defaultExclude
                             ["loop"; "/dev/fd0"; "/dev/sr0"; "/dev/ram";
                              "/dev/dm-"; "/dev/md"]
                             (Devices filters) |} |} |} |},
       None)
  end.

(** The resource with no filter at all, the zero value of the
    specification. *)
Definition zeroPersistentStorage : PersistentStorageV1 :=
  let none := {| Include := []; Exclude := [] |} in
  {| Spec :=
       {| OpenEBS_ :=
            {| Filters :=
                 {| MountPoints := none; Vendors := none;
                    Devices := none |} |} |} |}.

(** DefaultPersistentStorage, from the zero metadata: the error of
    CheckAndSetDefaults is dropped. *)
Definition DefaultPersistentStorage (zeroMetadata : Metadata)
  : Metadata * PersistentStorageV1 :=
  fst (CheckAndSetDefaults zeroMetadata zeroPersistentStorage).

End CheckAndSetDefaults.

(** [v1.ConfigMap], as far as ToConfigMap fills it. *)
Record ConfigMap := {
  ConfigMapKind : string;
  ConfigMapAPIVersion : string;
  ConfigMapName : string;
  ConfigMapNamespace : string;
  ConfigMapLabels : list (string * string);
  ConfigMapData : list (string * string)
}.

Section ToConfigMap.

(** [yaml.Marshal(c)]: the bytes and the error. *)
Variable yamlMarshal : NDMConfig -> string * option error.
(** [constants.KindConfigMap], [metav1.SchemeGroupVersion.Version],
    [constants.OpenEBSNDMMap] and [defaults.OpenEBSNamespace]. *)
Variables (KindConfigMap SchemeGroupVersion : string).
Variables (OpenEBSNDMMap OpenEBSNamespace : string).

Definition ToConfigMap : M (option ConfigMap * option error) :=
  fun σ =>
    match yamlMarshal (config σ) with
    | (_, Some err) => ((None, Some (trace.Wrap' err)), σ)
    | (data, None) =>
        ((Some {| ConfigMapKind := KindConfigMap;
                  ConfigMapAPIVersion := SchemeGroupVersion;
                  ConfigMapName := OpenEBSNDMMap;
                  ConfigMapNamespace := OpenEBSNamespace;
                  ConfigMapLabels :=
                    [("openebs.io/component-name", "ndm-config")];
                  ConfigMapData :=
                    [("node-disk-manager.config", data)] |},
          None), σ)
    end.

End ToConfigMap.

End storage.

(** ** gravitational/rigging *)

Module rigging.

(** [rigging.ConvertError]: a Kubernetes status error becomes the trace
    error of its HTTP code; nil and every other error are returned as
    they are. *)
Definition ConvertError (err : option error) : option error :=
  match err with
  | Some (StatusError st as e) =>
      let message :=
        if decide (Details st = "") then Error e
        else Error e +:+ ", details: " +:+ Details st in
      if (Code st =? 409)%Z && String.eqb (Reason st) "AlreadyExists"
      then Some (trace.AlreadyExists message)
      else if (Code st =? 404)%Z then Some (trace.NotFound message)
      else if (Code st =? 403)%Z then Some (trace.AccessDenied message)
      else err
  | _ => err
  end.

End rigging.

(** ** lib/install/phases: the OpenEBS executor *)

Module phases.

(** What the executor does to the outside, in order. *)
Inductive Effect :=
| NextStep (message : string)
| Info (message : string)
| DeleteConfigMap (namespace name : string).

(** The executor [openebs]; of its Kubernetes client, the answer of
    [CoreV1().ConfigMaps(namespace).Delete(name, options)]. *)
Record openebs := {
  Delete : string -> string -> option error
}.

Section Rollback.

(** [defaults.OpenEBSNamespace] and [constants.OpenEBSNDMMap]. *)
Variables (OpenEBSNamespace OpenEBSNDMMap : string).

(** Rollback deletes created system Kubernetes resources. *)
Definition Rollback (r : openebs) : list Effect * option error :=
  let err := Delete r OpenEBSNamespace OpenEBSNDMMap in
  let err := rigging.ConvertError err in
  ( [ NextStep "Deleting OpenEBS configuration";
      Info "Deleting OpenEBS configuration.";
      DeleteConfigMap OpenEBSNamespace OpenEBSNDMMap ],
    if bool_decide (err ≠ None) && negb (trace.IsNotFound err)
    then trace.Wrap err
    else None ).

(** PreCheck is no-op for this phase. *)
Definition PreCheck (r : openebs) : option error := None.

(** PostCheck is no-op for this phase. *)
Definition PostCheck (r : openebs) : option error := None.

End Rollback.

(** The answer of the delete call says that the resource does not
    exist: a status error with code 404, or, for an error of another
    type, a not-found error below the trace wrappers. *)
Definition reportsNotExist (e : error) : bool :=
  match e with
  | StatusError st => (Code st =? 404)%Z
  | _ =>
      match trace.Unwrap' e with
      | NotFoundError _ | ErrNotExist => true
      | _ => false
      end
  end.

(** *** Execute *)

(** The calls Execute makes to the cluster, in order. *)
Inductive Call :=
| CreateNamespace (name : string)
| CreateConfigMap (configMap : storage.ConfigMap).

Section Execute.

Variable yamlMarshal : storage.NDMConfig -> string * option error.
Variables (KindConfigMap SchemeGroupVersion : string).
Variables (OpenEBSNDMMap OpenEBSNamespace : string).
(** The answers of the client to the two create calls. *)
Variable createNamespace : string -> option error.
Variable createConfigMap : storage.ConfigMap -> option error.

(** Execute creates the OpenEBS configuration; [persistentStorage] is
    [r.Phase.Data.Install.PersistentStorage], nil when there is none. *)
Definition Execute (persistentStorage : option storage.PersistentStorageV1)
  : list Call * option error :=
  let σ := storage.initial storage.DefaultNDMConfig in
  let σ := match persistentStorage with
           | Some ps => snd (storage.Apply ps σ)
           | None => σ
           end in
  match fst (storage.ToConfigMap yamlMarshal KindConfigMap
               SchemeGroupVersion OpenEBSNDMMap OpenEBSNamespace σ) with
  | (_, Some err) => ([], Some (trace.Wrap' err))
  | (None, None) => ([], None)
  | (Some configMap, None) =>
      match rigging.ConvertError (createNamespace OpenEBSNamespace) with
      | Some err => ([CreateNamespace OpenEBSNamespace], Some err)
      | None =>
          ( [CreateNamespace OpenEBSNamespace; CreateConfigMap configMap],
            rigging.ConvertError (createConfigMap configMap) )
      end
  end.

End Execute.

End phases.

(** ** lib/rpc/server: watch events *)

Module rpcserver.

(** [WatchEvent]: the peer, as [%v] prints it, and the reconnect
    error. *)
Record WatchEvent := {
  Peer : string;
  Error : option error
}.

(** The event is a heartbeat: its error is nil. *)
Definition heartbeat (e : WatchEvent) : Prop := Error e = None.

End rpcserver.

(** ** gopkg.in/alecthomas/kingpin.v2: the parse context *)

Module kingpin.

(** A command clause with its parent commands. *)
#[warnings="-register-all"]
Inductive CmdClause :=
| Cmd (name : string) (parent : option CmdClause).

Fixpoint commandPath (c : CmdClause) : list string :=
  match c with
  | Cmd name None => [name]
  | Cmd name (Some p) => commandPath p ++ [name]
  end.

(** The method [FullCommand] of a command clause. *)
Definition FullCommand (c : CmdClause) : string :=
  strings.Join (commandPath c) " ".

(** The clause of a parse element. Of a flag clause the code reads
    [Model().Name] and whether [Model().Value] has the method
    [IsBoolFlag]. *)
Inductive Clause :=
| ArgClause
| FlagClause (Name : string) (isBoolFlag : bool)
| CmdClause_ (c : CmdClause).

(** [ParseElement]; [Value] is a [*string]. *)
Record ParseElement := {
  Clause_ : Clause;
  Value : option string
}.

Record ParseContext := {
  SelectedCommand : option CmdClause;
  Elements : list ParseElement
}.

End kingpin.

(** ** tool/gravity/cli: utilities *)

Module cli.

Import kingpin.

(** *** watchReconnects *)

(** What the watching goroutine does, in order: it receives an event
    from the channel, logs a warning, calls [cancel]. *)
Inductive Action :=
| Receive (event : rpcserver.WatchEvent)
| Warnf (message : string)
| Cancel.

(** The goroutine [watchReconnects] starts, run on a channel that
    delivers [watchCh] and is then closed: the actions taken and the
    events left in the channel at its return. *)
Fixpoint watchReconnects (watchCh : list rpcserver.WatchEvent)
  : list Action * list rpcserver.WatchEvent :=
  match watchCh with
  | [] => ([], [])
  | event :: rest =>
      match rpcserver.Error event with
      | None =>
          let '(actions, unread) := watchReconnects rest in
          (Receive event :: actions, unread)
      | Some err =>
          ( [ Receive event;
              Warnf ("Failed to reconnect to " +:+ rpcserver.Peer event
                     +:+ ": " +:+ Error err +:+ ".");
              Cancel ],
            rest )
      end
  end.

(** The number of calls of [cancel] among the actions. *)
Fixpoint cancels (actions : list Action) : nat :=
  match actions with
  | [] => 0
  | Cancel :: rest => S (cancels rest)
  | _ :: rest => cancels rest
  end.

(** *** updateCommandWithFlags *)

Record flag := {
  name : string;
  value : string
}.

(** [ArgsParser]: the parse context or the error. *)
Definition ArgsParser := list string -> ParseContext + error.

(** What a call comes to: the returned arguments, the returned error,
    or a run-time panic. *)
Inductive Result :=
| Returned (args : list string)
| Failed (err : error)
| Panicked.

(** The slice [flagsToAdd]: its backing array, of which the slice is
    the first [len] elements. The capacity is the array's length. *)
Record Slice := {
  array : list flag;
  len : nat
}.

Definition cap (s : Slice) : nat := length (array s).

(** A slice of exactly these elements. *)
Definition sliceOf (flags : list flag) : Slice :=
  {| array := flags; len := length flags |}.

(** The elements of a slice. *)
Definition elements (s : Slice) : list flag := take (len s) (array s).

(** [append(s[:i], s[i+1:]...)]: [s[:i]] needs [i <= cap(s)] and
    [s[i+1:]] needs [i+1 <= len(s)], else the slice expression panics;
    the result has [len(s)-1] elements, which fit the capacity, so the
    elements of [s[i+1:]] are moved down by one inside the same
    array. *)
Definition removeAt (i : nat) (s : Slice) : option Slice :=
  if decide (i ≤ cap s ∧ i + 1 ≤ len s)%nat
  then Some {| array := take i (array s)
                          ++ take (len s - (i + 1)) (drop (i + 1) (array s))
                          ++ drop (len s - 1) (array s);
               len := len s - 1 |}
  else None.

(** The loop [for i, flag := range flagsToAdd] for a flag clause named
    [Name], from index [i] with [n] iterations to go. The range
    expression is evaluated once, so the number of iterations is the
    length the slice had before the loop; [flag] is read from the
    array at each iteration, and [flagsToAdd] is reassigned inside. *)
Fixpoint rangeFlagsToAdd (Name : string) (n i : nat) (flagsToAdd : Slice)
  : option Slice :=
  match n with
  | O => Some flagsToAdd
  | S n' =>
      flag ← array flagsToAdd !! i;
      if String.eqb Name (name flag)
      then flagsToAdd' ← removeAt i flagsToAdd;
           rangeFlagsToAdd Name n' (S i) flagsToAdd'
      else rangeFlagsToAdd Name n' (S i) flagsToAdd
  end.

(** The loop over [ctx.Elements]; [None] is a panic ([*el.Value] of a
    nil pointer, or a slice expression out of range). *)
Fixpoint rangeElements (els : list ParseElement) (args : list string)
    (flagsToAdd : Slice) : option (list string * Slice) :=
  match els with
  | [] => Some (args, flagsToAdd)
  | el :: rest =>
      match Clause_ el with
      | ArgClause =>
          v ← Value el;
          rangeElements rest (args ++ [strconv.Quote v]) flagsToAdd
      | FlagClause Name isBool =>
          args' ← (if isBool
                   then Some (args ++ ["--" +:+ Name])
                   else v ← Value el;
                        Some (args ++ ["--" +:+ Name; strconv.Quote v]));
          flagsToAdd' ← rangeFlagsToAdd Name (len flagsToAdd) 0 flagsToAdd;
          rangeElements rest args' flagsToAdd'
      | CmdClause_ _ => rangeElements rest args flagsToAdd
      end
  end.

(** The last loop: every flag still in [flagsToAdd] is appended as its
    name and its quoted value. *)
Definition appendFlag (f : flag) : list string :=
  ["--" +:+ name f; strconv.Quote (value f)].

(** updateCommandWithFlags returns new command line for the specified
    command. flagsToAdd are added to the resulting command line if not
    yet present. *)
Definition updateCommandWithFlags (command : list string)
    (parser : ArgsParser) (flagsToAdd : list flag) : Result :=
  match parser command with
  | inr err => Failed (trace.Wrap' err)
  | inl ctx =>
      match SelectedCommand ctx with
      | None => Panicked
      | Some selected =>
          let outputCommand := FullCommand selected in
          match rangeElements (Elements ctx) [] (sliceOf flagsToAdd) with
          | None => Panicked
          | Some (args, flagsToAdd') =>
              Returned (outputCommand
                          :: args ++ flat_map appendFlag (elements flagsToAdd'))
          end
      end
  end.

(** *** The command line the documentation describes

    The elements of the original line rendered in order, then every
    requested flag whose name is on no flag of the original line. *)
Definition renderElement (el : ParseElement) : list string :=
  match Clause_ el with
  | ArgClause => [strconv.Quote (default "" (Value el))]
  | FlagClause Name true => ["--" +:+ Name]
  | FlagClause Name false =>
      ["--" +:+ Name; strconv.Quote (default "" (Value el))]
  | CmdClause_ _ => []
  end.

(** The names of the flags on the original line. *)
Fixpoint flagNames (els : list ParseElement) : list string :=
  match els with
  | [] => []
  | el :: rest =>
      match Clause_ el with
      | FlagClause Name _ => Name :: flagNames rest
      | _ => flagNames rest
      end
  end.

Definition notPresent (els : list ParseElement) (flags : list flag)
  : list flag :=
  filter (fun f => name f ∉ flagNames els) flags.

(** Every argument and every non-boolean flag of the line has its
    value, as kingpin's parser builds them. *)
Definition hasValue (el : ParseElement) : bool :=
  match Clause_ el with
  | ArgClause | FlagClause _ false => bool_decide (Value el ≠ None)
  | _ => true
  end.

(** *** The scenario of the specification

    The line [install --token abc] as kingpin parses it: the command
    clause, then the flag [token], which is not boolean, with its
    value. *)
Definition installCommand : CmdClause := Cmd "install" None.

Definition installContext : ParseContext :=
  {| SelectedCommand := Some installCommand;
     Elements :=
       [ {| Clause_ := CmdClause_ installCommand; Value := None |};
         {| Clause_ := FlagClause "token" false; Value := Some "abc" |} ] |}.

Definition installParser : ArgsParser :=
  fun command =>
    if decide (command = ["install"; "--token"; "abc"])
    then inl installContext
    else inr (errorString "unexpected command line").

(** *** findServer and findLocalServer *)

(** [storage.Server], as far as the search reads it. *)
Record Server := {
  AdvertiseIP : string;
  Hostname : string;
  Nodename : string
}.

(** The inner loop of findServer over the tokens, for one server: an
    empty token is skipped, a token equal to the advertise IP, the
    hostname or the node name of the server ends the search. *)
Fixpoint matchesToken (server : Server) (tokens : list string) : bool :=
  match tokens with
  | [] => false
  | token :: rest =>
      if String.eqb token "" then matchesToken server rest
      else if String.eqb token (AdvertiseIP server)
              || String.eqb token (Hostname server)
              || String.eqb token (Nodename server)
           then true
           else matchesToken server rest
  end.

(** The outer loop, over [site.ClusterState.Servers]. *)
Fixpoint findServerLoop (servers : list Server) (tokens : list string)
  : option Server :=
  match servers with
  | [] => None
  | server :: rest =>
      if matchesToken server tokens then Some server
      else findServerLoop rest tokens
  end.

(** The server answers to the token: the token is not empty and is the
    advertise IP, the hostname or the node name of the server. *)
Definition answersTo (server : Server) (token : string) : Prop :=
  token <> "" /\
  (token = AdvertiseIP server \/ token = Hostname server
   \/ token = Nodename server).

(** How [%v] prints a slice of strings. *)
Definition formatTokens (tokens : list string) : string :=
  "[" +:+ strings.Join tokens " " +:+ "]".

(** findServer searches the provided cluster's state for a server that
    matches one of the provided tokens, where a token can be the
    server's advertise IP, hostname or AWS internal DNS name. *)
Definition findServer (servers : list Server) (tokens : list string)
  : Server + error :=
  match findServerLoop servers tokens with
  | Some server => inl server
  | None =>
      inr (trace.NotFound
             ("could not find server matching " +:+ formatTokens tokens
              +:+ " among registered cluster nodes"))
  end.

(** [systeminfo.NetworkInterface], as far as it is read. *)
Record NetworkInterface := {
  IfaceName : string;
  IPv4 : string
}.

(** findLocalServer searches the provided cluster's state for the server
    that matches the one the current command is being executed from;
    [NetworkInterfaces] is the answer of
    [systeminfo.NetworkInterfaces()]. *)
Definition findLocalServer
    (NetworkInterfaces : list NetworkInterface * option error)
    (servers : list Server) : Server + error :=
  match NetworkInterfaces with
  | (_, Some err) => inr (trace.Wrap' err)
  | (ifaces, None) =>
      if decide (length ifaces = 0)
      then inr (trace.NotFound "no network interfaces found")
      else match findServer servers (IPv4 <$> ifaces) with
           | inr err => inr (trace.Wrap' err)
           | inl server => inl server
           end
  end.

(** *** ConfigureNoProxy *)

(** The environment of the process; [os.Getenv] of an unset variable is
    the empty string. *)
Definition Getenv (env : gmap string string) (key : string) : string :=
  default "" (env !! key).

Definition Setenv (key value : string) (env : gmap string string)
  : gmap string string :=
  <[key := value]> env.

(** The loop [for k, v := range proxy], for the order in which the two
    keys of the map come out, and the statement after it. *)
Fixpoint rangeProxy (proxy : list (string * string))
    (env : gmap string string) : gmap string string :=
  match proxy with
  | [] => Setenv "NO_PROXY" (strings.Join ["0.0.0.0/0"; ".local"] ",") env
  | (k, v) :: rest =>
      if decide (String.length v ≠ 0)%nat
      then Setenv k (strings.Join [v; "0.0.0.0/0"; ".local"] ",") env
      else rangeProxy rest env
  end.

(** ConfigureNoProxy; the iteration order of a Go map is not fixed, so
    the order of the two keys is an argument: [upperFirst] says that
    NO_PROXY comes before no_proxy. *)
Definition ConfigureNoProxy (upperFirst : bool) (env : gmap string string)
  : gmap string string :=
  let upper := ("NO_PROXY", Getenv env "NO_PROXY") in
  let lower := ("no_proxy", Getenv env "no_proxy") in
  rangeProxy (if upperFirst then [upper; lower] else [lower; upper]) env.

(** *** isUpdateCommand and isExpandCommand *)

(** The commands of the [Application] the two predicates read: the full
    command of each, and the arguments of the two agent commands. *)
Record Application := {
  PlanCmd : string;
  PlanDisplayCmd : string;
  PlanExecuteCmd : string;
  PlanRollbackCmd : string;
  PlanResumeCmd : string;
  PlanCompleteCmd : string;
  UpdatePlanInitCmd : string;
  UpdateTriggerCmd : string;
  UpgradeCmd : string;
  AutoJoinCmd : string;
  RPCAgentRunCmd : string;
  RPCAgentRunArgs : list string;
  RPCAgentDeployCmd : string;
  RPCAgentDeployLeaderArgs : string;
  RPCAgentDeployNodeArgs : string
}.

(** [cmd] is one of the listed case values. *)
Fixpoint caseOf (cmd : string) (values : list string) : bool :=
  match values with
  | [] => false
  | v :: rest => String.eqb cmd v || caseOf cmd rest
  end.

(** isUpdateCommand returns true if the specified command is an upgrade
    related command. *)
Definition isUpdateCommand (g : Application) (cmd : string) : bool :=
  if caseOf cmd [ PlanCmd g; PlanDisplayCmd g; PlanExecuteCmd g;
                  PlanRollbackCmd g; PlanResumeCmd g; PlanCompleteCmd g;
                  UpdatePlanInitCmd g; UpdateTriggerCmd g; UpgradeCmd g ]
  then true
  else if caseOf cmd [RPCAgentRunCmd g]
  then (0 <? length (RPCAgentRunArgs g))%nat
  else if caseOf cmd [RPCAgentDeployCmd g]
  then (0 <? String.length (RPCAgentDeployLeaderArgs g))%nat
       || (0 <? String.length (RPCAgentDeployNodeArgs g))%nat
  else false.

(** isExpandCommand returns true if the specified command is
    expand-related command. *)
Definition isExpandCommand (g : Application) (cmd : string) : bool :=
  if caseOf cmd [ AutoJoinCmd g; PlanCmd g; PlanDisplayCmd g;
                  PlanExecuteCmd g; PlanRollbackCmd g; PlanCompleteCmd g;
                  PlanResumeCmd g ]
  then true
  else false.

End cli.

(** * Properties *)

(** ** Strings *)

Section StringFacts.

Import strings.

Lemma HasPrefix_nil s : HasPrefix s "" = true.
Proof. by destruct s. Qed.

(** Two prefixes of one string are comparable. *)
Lemma HasPrefix_comparable s a b :
  HasPrefix s a = true -> HasPrefix s b = true ->
  HasPrefix a b = true \/ HasPrefix b a = true.
Proof.
  revert a b. induction s as [|c s IH]; intros [|x a] [|y b]; simpl;
    try (by auto); try discriminate.
  destruct (Ascii.eqb x c) eqn:Hx; [|discriminate].
  destruct (Ascii.eqb y c) eqn:Hy; [|discriminate].
  apply Ascii.eqb_eq in Hx, Hy. subst x y.
  rewrite Ascii.eqb_refl. apply IH.
Qed.

Lemma distinctFamilies_disjoint s a b :
  install.distinctFamilies a b = true ->
  HasPrefix s b = true -> HasPrefix s a = false.
Proof.
  unfold install.distinctFamilies. intros Hd Hb.
  destruct (HasPrefix s a) eqn:Ha; [|done].
  destruct (HasPrefix_comparable _ _ _ Ha Hb) as [H|H]; rewrite H in Hd;
    simpl in Hd; [discriminate|].
  by rewrite andb_false_r in Hd.
Qed.

Lemma not_exact_of_family s a b :
  HasPrefix a b = false -> HasPrefix s b = true -> String.eqb s a = false.
Proof.
  intros Hab Hb. destruct (String.eqb s a) eqn:E; [|done].
  apply String.eqb_eq in E. subst. congruence.
Qed.

End StringFacts.

(** ** watchReconnects *)

Section WatchReconnects.

Import cli.

(** Every finite stream is all heartbeats, or splits at its first event
    with an error. *)
Lemma stream_shape (watchCh : list rpcserver.WatchEvent) :
  Forall rpcserver.heartbeat watchCh \/
  exists pre ev err post,
    watchCh = pre ++ ev :: post /\ Forall rpcserver.heartbeat pre /\
    rpcserver.Error ev = Some err.
Proof.
  induction watchCh as [|e rest IH]; [left; constructor|].
  destruct (rpcserver.Error e) as [err|] eqn:He.
  - right. exists [], e, err, rest. repeat split; [constructor|done].
  - destruct IH as [IH|(pre & ev & err & post & -> & Hpre & Hev)].
    + left. by constructor.
    + right. exists (e :: pre), ev, err, post.
      repeat split; [by constructor|done].
Qed.

Lemma watchReconnects_heartbeats watchCh :
  Forall rpcserver.heartbeat watchCh ->
  watchReconnects watchCh = (Receive <$> watchCh, []).
Proof.
  induction 1 as [|e rest He _ IH]; [done|].
  simpl. unfold rpcserver.heartbeat in He. by rewrite He, IH.
Qed.

Lemma watchReconnects_first_error pre ev err post :
  Forall rpcserver.heartbeat pre -> rpcserver.Error ev = Some err ->
  watchReconnects (pre ++ ev :: post) =
    ((Receive <$> pre) ++
       [Receive ev;
        Warnf ("Failed to reconnect to " +:+ rpcserver.Peer ev +:+ ": "
               +:+ Error err +:+ ".");
        Cancel],
     post).
Proof.
  intros Hpre Hev. induction Hpre as [|e rest He _ IH]; simpl.
  - by rewrite Hev.
  - unfold rpcserver.heartbeat in He. by rewrite He, IH.
Qed.

Lemma cancels_app a b : cancels (a ++ b) = cancels a + cancels b.
Proof.
  induction a as [|[] a IH]; simpl; [done| | |]; rewrite IH; lia.
Qed.

Lemma cancels_receive evs : cancels (Receive <$> evs) = 0.
Proof. induction evs; simpl; done. Qed.

(** C1. Whatever finite stream the goroutine of watchReconnects reads:
    either no event carries an error, then it receives them all and never
    calls cancel; or the stream splits at its first event with a non-nil
    error, then it receives the heartbeats before it and that event, logs
    the peer and the error, calls cancel, and stops: cancel is called
    exactly once, as the last action, after the first error event was
    received and not before, and the events after it stay unread. *)
Theorem watchReconnects_cancels_once_at_first_error
    (watchCh : list rpcserver.WatchEvent) :
  (Forall rpcserver.heartbeat watchCh /\
   watchReconnects watchCh = (Receive <$> watchCh, []) /\
   cancels (watchReconnects watchCh).1 = 0)
  \/
  (exists pre ev err post,
     watchCh = pre ++ ev :: post /\
     Forall rpcserver.heartbeat pre /\
     rpcserver.Error ev = Some err /\
     watchReconnects watchCh =
       ((Receive <$> pre) ++
          [Receive ev;
           Warnf ("Failed to reconnect to " +:+ rpcserver.Peer ev +:+ ": "
                  +:+ Error err +:+ ".");
           Cancel],
        post) /\
     cancels (watchReconnects watchCh).1 = 1 /\
     cancels ((Receive <$> pre) ++ [Receive ev]) = 0).
Proof.
  destruct (stream_shape watchCh)
    as [Hall|(pre & ev & err & post & -> & Hpre & Hev)].
  - left. rewrite (watchReconnects_heartbeats _ Hall).
    repeat split; [done|]. apply cancels_receive.
  - right. exists pre, ev, err, post.
    rewrite (watchReconnects_first_error _ _ _ _ Hpre Hev). simpl.
    repeat split; try done.
    + rewrite cancels_app, cancels_receive. done.
    + rewrite cancels_app, cancels_receive. done.
Qed.

(** The scenario of the specification: a heartbeat, then an error for
    peer 10.0.0.5. *)
Example watchReconnects_scenario :
  watchReconnects
    [ {| rpcserver.Peer := "10.0.0.5"; rpcserver.Error := None |};
      {| rpcserver.Peer := "10.0.0.5";
         rpcserver.Error := Some (errorString "connection lost") |} ]
  = ( [ Receive {| rpcserver.Peer := "10.0.0.5"; rpcserver.Error := None |};
        Receive {| rpcserver.Peer := "10.0.0.5";
                   rpcserver.Error := Some (errorString "connection lost") |};
        Warnf "Failed to reconnect to 10.0.0.5: connection lost.";
        Cancel ],
      [] ).
Proof. reflexivity. Qed.

End WatchReconnects.

(** ** The error classifier *)

Section Classifier.

Import utils.

Lemma Unwrap'_not_TraceErr e e' m : trace.Unwrap' e <> TraceErr e' m.
Proof. induction e; simpl; congruence. Qed.

Lemma Unwrap'_idemp e : trace.Unwrap' (trace.Unwrap' e) = trace.Unwrap' e.
Proof. induction e; simpl; congruence. Qed.

Lemma Unwrap'_Wrap' e : trace.Unwrap' (trace.Wrap' e) = trace.Unwrap' e.
Proof. by destruct e. Qed.

(** An error value is not its own permanent wrapper. *)
Lemma PermanentError_fresh e : PermanentError e <> e.
Proof. induction e; congruence. Qed.

(** C3. For every (non-nil) error, ShouldReconnectPeer returns the
    permanent wrapper around it exactly when its message contains
    "peer not authorized", the license limit message or one of the two
    hostname-already-registered messages, and returns the error itself
    otherwise; so the result stops a backoff loop, which stops on a
    PermanentError, exactly on these classifications unless the error
    was a PermanentError already. *)
Theorem ShouldReconnectPeer_permanent_iff (err : error) :
  (ShouldReconnectPeer err = PermanentError err <->
     permanentMessage (Error err))
  /\ (ShouldReconnectPeer err = err <-> ~ permanentMessage (Error err))
  /\ (ShouldReconnectPeer err = PermanentError err
      \/ ShouldReconnectPeer err = err)
  /\ ((exists e, ShouldReconnectPeer err = PermanentError e) <->
        permanentMessage (Error err) \/ exists e, err = PermanentError e).
Proof.
  unfold ShouldReconnectPeer, permanentMessage, isPeerDeniedError,
    isLicenseError, isHostAlreadyRegisteredError.
  pose proof (PermanentError_fresh err) as Hfresh.
  destruct (strings.Contains (Error err) "peer not authorized");
  destruct (strings.Contains (Error err) "license allows maximum of");
  destruct (strings.Contains (Error err)
              "One of existing peers already has hostname");
  destruct (strings.Contains (Error err)
              "One of existing servers already has hostname");
  simpl; repeat split; try tauto; try (intros; eauto; fail);
  try (intros H; exfalso; revert H; intuition congruence; fail);
  try (intros [e He]; right; by exists e);
  try (intros [H|[e He]]; [exfalso; intuition congruence | by exists e]);
  intuition (try congruence; eauto).
Qed.

Lemma IsTransientClusterError_orb e :
  IsTransientClusterError (Some e) =
    trace.IsConnectionProblem (Some e)
    || IsConnectionResetError e
    || IsConnectionRefusedError e
    || IsClusterUnavailableError (Some e)
    || isEtcdClusterError (Some e)
    || isKubernetesEtcdClusterError (Some e).
Proof.
  unfold IsTransientClusterError.
  destruct (trace.IsConnectionProblem _), (IsConnectionResetError _),
    (IsConnectionRefusedError _), (IsClusterUnavailableError _),
    (isEtcdClusterError _), (isKubernetesEtcdClusterError _); reflexivity.
Qed.

Lemma IsConnectionProblem_iff e :
  trace.IsConnectionProblem (Some e) = true <->
  exists m c, trace.Unwrap' e = ConnectionProblemError m c.
Proof.
  unfold trace.IsConnectionProblem. simpl.
  destruct (trace.Unwrap' e); split; try discriminate; eauto;
    intros (? & ? & ?); discriminate.
Qed.

Lemma isEtcdClusterError_iff e :
  isEtcdClusterError (Some e) = true <->
  exists errs, trace.Unwrap' e = ClusterError errs.
Proof.
  unfold isEtcdClusterError. simpl.
  destruct (trace.Unwrap' e); split; try discriminate; eauto;
    intros (? & ?); discriminate.
Qed.

Lemma isEtcdClusterErrorMessage_iff m :
  isEtcdClusterErrorMessage m = true <->
  strings.Contains m "etcd cluster is unavailable or misconfigured" = true
  \/ (strings.Contains m "etcd member" = true
      /\ strings.Contains m "has no leader" = true).
Proof.
  unfold isEtcdClusterErrorMessage, isEtcdClusterMisconfigured,
    isEtcdClusterHasNoLeader.
  rewrite orb_true_iff, andb_true_iff. tauto.
Qed.

Lemma isKubernetesEtcdClusterError_iff e :
  isKubernetesEtcdClusterError (Some e) = true <->
  exists st, trace.Unwrap' e = StatusError st /\ Code st = 500%Z
             /\ isEtcdClusterErrorMessage (StatusMessage st) = true.
Proof.
  unfold isKubernetesEtcdClusterError. simpl.
  destruct (trace.Unwrap' e) as [| | | | | | | | |st| | |];
    try (split; [discriminate | intros (? & ? & ?); discriminate]).
  rewrite andb_true_iff, Z.eqb_eq. split.
  - intros [? ?]. by exists st.
  - intros (st' & [= <-] & ? & ?). done.
Qed.

(** C4. IsTransientClusterError is false for nil; for an error [e] it is
    true exactly when [e] falls in one of the transient categories: below
    the trace wrappers it is a connection problem; its message there
    contains "connection reset by peer" or "connection refused"; its user
    message is an etcd cluster message ("etcd cluster is unavailable or
    misconfigured", or "etcd member" with "has no leader"); below the
    wrappers it is an etcd cluster error, or a Kubernetes status error
    with code 500 and an etcd cluster message. Every other error is not
    transient. An error wrapping the message "etcd cluster is unavailable
    or misconfigured" is transient, an error of an unknown message is
    not. *)
Theorem IsTransientClusterError_categories :
  IsTransientClusterError None = false
  /\ (forall e : error,
        IsTransientClusterError (Some e) = true <->
        (exists m c, trace.Unwrap' e = ConnectionProblemError m c)
        \/ strings.Contains (Error (trace.Unwrap' e))
             "connection reset by peer" = true
        \/ strings.Contains (Error (trace.Unwrap' e))
             "connection refused" = true
        \/ isEtcdClusterErrorMessage (trace.UserMessage (Some e)) = true
        \/ (exists errs, trace.Unwrap' e = ClusterError errs)
        \/ (exists st, trace.Unwrap' e = StatusError st /\ Code st = 500%Z
                       /\ isEtcdClusterErrorMessage (StatusMessage st) = true))
  /\ (forall m : string,
        isEtcdClusterErrorMessage m = true <->
        strings.Contains m "etcd cluster is unavailable or misconfigured"
          = true
        \/ (strings.Contains m "etcd member" = true
            /\ strings.Contains m "has no leader" = true))
  /\ IsTransientClusterError
       (trace.Wrap
          (Some (errorString "etcd cluster is unavailable or misconfigured")))
     = true
  /\ IsTransientClusterError (Some (errorString "disk quota exceeded"))
     = false.
Proof.
  split; [reflexivity|]. split; [|split; [|split; reflexivity]].
  - intros e. rewrite IsTransientClusterError_orb, !orb_true_iff.
    rewrite IsConnectionProblem_iff, isEtcdClusterError_iff,
      isKubernetesEtcdClusterError_iff.
    unfold IsConnectionResetError, IsConnectionRefusedError,
      IsClusterUnavailableError. tauto.
  - apply isEtcdClusterErrorMessage_iff.
Qed.

(** C7. IsContextCancelledError is true exactly when the error below the
    trace wrappers is context.Canceled itself, or is a connection problem
    error whose Err is context.Canceled; so it is true of a raw
    context.Canceled, and false of nil and of an error with the same
    message that is not the sentinel. *)
Theorem IsContextCancelledError_iff (err : option error) :
  (IsContextCancelledError err = true <->
     trace.Unwrap err = Some Canceled
     \/ exists m, trace.Unwrap err
                  = Some (ConnectionProblemError m (Some Canceled)))
  /\ IsContextCancelledError (Some Canceled) = true
  /\ IsContextCancelledError None = false
  /\ IsContextCancelledError (Some (errorString "context canceled")) = false.
Proof.
  split; [|by repeat split].
  unfold IsContextCancelledError.
  destruct (trace.Unwrap err) as [[]|] eqn:Hu; simpl;
    try (split; [discriminate | intros [?|[? ?]]; discriminate]).
  - split; [by left | done].
  - destruct Err as [[]|]; simpl;
      try (split; [discriminate | intros [?|[? [= ?]]]; discriminate]).
    split; [right; by eexists | done].
Qed.

(** C9. For every exit code and every (non-nil) error, the result of
    WrapExitCodeError satisfies the interface ExitCodeError, with the
    code as ExitCode(), the error's own message as Error() and the error
    itself as OrigError(); and NewExitCodeError(0) is nil. *)
Theorem WrapExitCodeError_preserves (c : Z) (err : error) :
  asExitCodeError (WrapExitCodeError c (Some err))
    = Some {| Error_ := Error err; ExitCode := c; OrigError := err |}
  /\ Error (WrapExitCodeError c (Some err)) = Error err
  /\ NewExitCodeError 0 = None.
Proof. by repeat split. Qed.

End Classifier.

(** ** The OpenEBS executor *)

Section OpenEBS.

Import phases.

Lemma ConvertError_not_found (e : error) :
  trace.IsNotFound (rigging.ConvertError (Some e)) = reportsNotExist e.
Proof.
  destruct e as [| | | | | | | | |st| | |]; try reflexivity.
  unfold rigging.ConvertError, reportsNotExist.
  destruct (Code st =? 409)%Z eqn:H409.
  - apply Z.eqb_eq in H409.
    replace (Code st =? 404)%Z with false by (symmetry; apply Z.eqb_neq; lia).
    replace (Code st =? 403)%Z with false by (symmetry; apply Z.eqb_neq; lia).
    simpl. by destruct (String.eqb _ _).
  - simpl. destruct (Code st =? 404)%Z eqn:H404; [done|].
    by destruct (Code st =? 403)%Z.
Qed.

Lemma ConvertError_is_Some (e : error) :
  exists e', rigging.ConvertError (Some e) = Some e'.
Proof.
  destruct e as [| | | | | | | | |st| | |]; simpl; eauto.
  destruct (_ && _); eauto. destruct (_ =? 404)%Z; eauto.
  destruct (_ =? 403)%Z; eauto.
Qed.

(** C6. Rollback of the OpenEBS phase asks for the deletion of the
    node-disk-manager config map and returns nil when the deletion
    succeeds and when its answer says that the resource does not exist
    (a status error with code 404, or a not-found error); for every
    other failure it returns the converted error wrapped by trace.Wrap,
    which is non-nil and keeps the converted error as its original. *)
Theorem Rollback_not_found_is_success
    (OpenEBSNamespace OpenEBSNDMMap : string) (r : openebs) :
  match Delete r OpenEBSNamespace OpenEBSNDMMap with
  | None => (Rollback OpenEBSNamespace OpenEBSNDMMap r).2 = None
  | Some e =>
      if reportsNotExist e
      then (Rollback OpenEBSNamespace OpenEBSNDMMap r).2 = None
      else exists e',
          rigging.ConvertError (Some e) = Some e'
          /\ (Rollback OpenEBSNamespace OpenEBSNDMMap r).2
             = Some (trace.Wrap' e')
          /\ trace.Unwrap' (trace.Wrap' e') = trace.Unwrap' e'
  end
  /\ forall st : Status,
      reportsNotExist (StatusError st) = (Code st =? 404)%Z.
Proof.
  split; [|done].
  unfold Rollback. cbv zeta. cbn [snd].
  destruct (Delete r _ _) as [e|]; [|done].
  rewrite ConvertError_not_found.
  destruct (reportsNotExist e); cbn [negb].
  - by rewrite andb_false_r.
  - destruct (ConvertError_is_Some e) as [e' He']. exists e'.
    rewrite He'. rewrite bool_decide_true by done.
    repeat split. apply Unwrap'_Wrap'.
Qed.

End OpenEBS.

(** ** The dispatch resolver *)

Section ResolverFacts.

Import install.

Context {Clientset OperatorClient ResourceFactory : Type}.
Variable names : PhaseNames.
Variable GetClusterKubeClient : string -> Clientset * option error.
Variable LocalClusterClient : OperatorClient * option error.
Variable gravityNew : OperatorClient -> ResourceFactory * option error.

Local Abbreviation resolve :=
  (FSMSpec Clientset OperatorClient ResourceFactory names
     GetClusterKubeClient LocalClusterClient gravityNew).

Local Ltac next_case :=
  match goal with
  | |- context [strings.HasPrefix ?a ?b] =>
      destruct (strings.HasPrefix a b) eqn:?; cbn [orb negb andb];
      [by eauto|]
  | |- context [String.eqb ?a ?b] =>
      destruct (String.eqb a b) eqn:?; cbn [orb negb andb]; [by eauto|]
  end.

Local Ltac client_case :=
  unfold withKubeClient, getKubeClient;
  destruct (GetClusterKubeClient _) as [? [?|]]; cbn;
  [right; split; [done|]; by eexists | by left].

(** The switch of FSMSpec is a first-match walk of the routing table:
    with no matching entry it fails with BadParameter, else it calls the
    factory of the first matching entry, or returns the error of building
    the client this factory needs. *)
Lemma FSMSpec_refines_table (p : ExecutorParams) :
  match firstMatch (table names) (PhaseID p) with
  | None =>
      resolve p
      = Fail (trace.BadParameter
                ("unknown phase " +:+ strconv.Quote (PhaseID p)))
  | Some f =>
      resolvedFactory (resolve p) = Some f
      \/ (needsClient f = true
          /\ exists err, resolve p = Fail (trace.Wrap' err))
  end.
Proof.
  unfold FSMSpec, table, firstMatch, matches.
  do 7 next_case.
  destruct (String.eqb _ (WaitPhase names)) eqn:?; [client_case|].
  next_case.
  destruct (String.eqb _ (RBACPhase names)) eqn:?; [client_case|].
  destruct (String.eqb _ (CorednsPhase names)) eqn:?; [client_case|].
  destruct (String.eqb _ (SystemResourcesPhase names)) eqn:?; [client_case|].
  do 7 next_case.
  destruct (strings.HasPrefix _ (GravityResourcesPhase names)) eqn:?; [|done].
  destruct LocalClusterClient as [operator [?|]];
    [right; split; [done|]; by eexists|].
  destruct (gravityNew operator) as [factory [?|]];
    [right; split; [done|]; by eexists|].
  by left.
Qed.

Lemma firstMatch_unmatched (ID : string) :
  unmatched names ID = true -> firstMatch (table names) ID = None.
Proof.
  unfold unmatched. generalize (table names) as t.
  induction t as [|[m f] t IH]; [done|]. simpl.
  destruct (matches m ID); simpl; [discriminate | apply IH].
Qed.

Lemma FSMSpec_system (p : ExecutorParams) :
  unshadowed names = true ->
  strings.HasPrefix (PhaseID p) (MastersPhase names) = true
  \/ strings.HasPrefix (PhaseID p) (NodesPhase names) = true ->
  resolve p = Invoke NewSystem p [Operator; Remote].
Proof.
  unfold unshadowed. cbn [forallb]. rewrite !andb_true_iff, !negb_true_iff.
  intros [[ [[[[Hi1 Hb1] Hp1] Hc1] Hf1] [ [[[[Hi2 Hb2] Hp2] Hc2] Hf2] _ ] ] _]
    Hfam.
  assert (strings.HasPrefix (PhaseID p) (InitPhase names) = false
          /\ String.eqb (PhaseID p) (ChecksPhase names) = false
          /\ String.eqb (PhaseID p) (ConfigurePhase names) = false
          /\ strings.HasPrefix (PhaseID p) (BootstrapPhase names) = false
          /\ strings.HasPrefix (PhaseID p) (PullPhase names) = false)
    as (Hi & Hc & Hf & Hb & Hp).
  { destruct Hfam as [H|H];
      eauto 10 using distinctFamilies_disjoint, not_exact_of_family. }
  unfold FSMSpec. rewrite Hi, Hc, Hf, Hb, Hp.
  destruct Hfam as [-> | ->]; [done | by rewrite orb_true_r].
Qed.

Lemma FSMSpec_checks (p : ExecutorParams) :
  unshadowed names = true ->
  PhaseID p = ChecksPhase names ->
  resolve p = Invoke NewChecks p [Operator; OperationKey].
Proof.
  unfold unshadowed. rewrite andb_true_iff, negb_true_iff.
  intros [_ Hinit] Hid. unfold FSMSpec.
  by rewrite Hid, Hinit, String.eqb_refl.
Qed.

(** C2. FSMSpec resolves a phase by the first matching entry of the
    ordered table of prefix and exact matchers. Whenever no entry above
    them takes their identifiers, every identifier with the masters
    prefix or the nodes prefix resolves to the one system factory, and
    the checks identifier to the checks factory; an identifier that no
    entry matches resolves to no executor and a BadParameter error that
    quotes the identifier. *)
Theorem FSMSpec_first_match_resolution (p : ExecutorParams)
    (Hnames : unshadowed names = true) :
  match firstMatch (table names) (PhaseID p) with
  | None =>
      resolve p
      = Fail (trace.BadParameter
                ("unknown phase " +:+ strconv.Quote (PhaseID p)))
  | Some f =>
      resolvedFactory (resolve p) = Some f
      \/ (needsClient f = true
          /\ exists err, resolve p = Fail (trace.Wrap' err))
  end
  /\ (strings.HasPrefix (PhaseID p) (MastersPhase names) = true
      \/ strings.HasPrefix (PhaseID p) (NodesPhase names) = true ->
      resolve p = Invoke NewSystem p [Operator; Remote])
  /\ (PhaseID p = ChecksPhase names ->
      resolve p = Invoke NewChecks p [Operator; OperationKey])
  /\ (unmatched names (PhaseID p) = true ->
      resolve p
      = Fail (trace.BadParameter
                ("unknown phase " +:+ strconv.Quote (PhaseID p)))
      /\ resolvedFactory (resolve p) = None
      /\ trace.IsBadParameter
           (Some (trace.BadParameter
                    ("unknown phase " +:+ strconv.Quote (PhaseID p))))
         = true).
Proof.
  split; [apply FSMSpec_refines_table|].
  split; [by apply FSMSpec_system|].
  split; [by apply FSMSpec_checks|].
  intros Hun. pose proof (FSMSpec_refines_table p) as H.
  rewrite (firstMatch_unmatched _ Hun) in H. by rewrite H.
Qed.

End ResolverFacts.

(** The scenario of the specification: "masters/1", "masters/2" and
    "nodes/1" go to the system factory, "checks" to the checks factory,
    "bogus/1" to a BadParameter error. *)
Lemma FSMSpec_scenario :
  let p ID := {| install.PhaseID := ID; install.PlanDNSAddr := "" |} in
  install.scenarioSpec (p "masters/1")
    = install.Invoke install.NewSystem (p "masters/1")
        [install.Operator; install.Remote]
  /\ install.scenarioSpec (p "masters/2")
    = install.Invoke install.NewSystem (p "masters/2")
        [install.Operator; install.Remote]
  /\ install.scenarioSpec (p "nodes/1")
    = install.Invoke install.NewSystem (p "nodes/1")
        [install.Operator; install.Remote]
  /\ install.scenarioSpec (p "checks")
    = install.Invoke install.NewChecks (p "checks")
        [install.Operator; install.OperationKey]
  /\ install.scenarioSpec (p "bogus/1")
    = install.Fail (trace.BadParameter
                      ("unknown phase " +:+ strconv.Quote "bogus/1")).
Proof.
  intros p.
  pose proof (fun ID => FSMSpec_first_match_resolution
                install.scenarioNames
                (fun _ => (tt, None)) (tt, None) (fun _ => (tt, None))
                (p ID) eq_refl) as H.
  split; [apply (H "masters/1"); left; reflexivity|].
  split; [apply (H "masters/2"); left; reflexivity|].
  split; [apply (H "nodes/1"); right; reflexivity|].
  split; [apply (H "checks"); reflexivity|].
  apply (H "bogus/1"); reflexivity.
Defined.

(** ** The node-disk-manager configuration *)

Section NDMConfigFacts.

Import storage.

(** The filter a call of getFilter gives the address of. *)
Lemma getFilter_fresh_copy key σ :
  getFilter key σ =
    (length (vars σ),
     {| config := config σ;
        vars := vars σ
                ++ [default zeroFilter
                      (findFilter key (FilterConfigs (config σ)))] |}).
Proof.
  unfold getFilter, bind, filterConfigs.
  by destruct (findFilter key _).
Qed.

Lemma load_fresh σ v :
  load (length (vars σ)) {| config := config σ; vars := vars σ ++ [v] |}
  = (v, {| config := config σ; vars := vars σ ++ [v] |}).
Proof.
  unfold load. cbn [vars]. f_equal.
  by rewrite lookup_app_r, Nat.sub_diag by lia.
Qed.

(** The setters write to the copy: the configuration stays as it was. *)
Lemma writeExclude_config key s σ :
  config (writeExclude key s σ).2 = config σ.
Proof.
  unfold writeExclude, bind. rewrite getFilter_fresh_copy, load_fresh. done.
Qed.

Lemma writeInclude_config key s σ :
  config (writeInclude key s σ).2 = config σ.
Proof.
  unfold writeInclude, bind. rewrite getFilter_fresh_copy, load_fresh. done.
Qed.

(** The getters read the configuration only. *)
Lemma readExclude_config key σ :
  (readExclude key σ).1
  = FilterExclude
      (default zeroFilter (findFilter key (FilterConfigs (config σ))))
  /\ config (readExclude key σ).2 = config σ.
Proof.
  unfold readExclude, bind. rewrite getFilter_fresh_copy, load_fresh. done.
Qed.

Lemma readInclude_config key σ :
  (readInclude key σ).1
  = FilterInclude
      (default zeroFilter (findFilter key (FilterConfigs (config σ))))
  /\ config (readInclude key σ).2 = config σ.
Proof.
  unfold readInclude, bind. rewrite getFilter_fresh_copy, load_fresh. done.
Qed.

Lemma bind_config {A B} (m : M A) (k : A -> M B) σ :
  config (m σ).2 = config σ ->
  (forall a σ', config (k a σ').2 = config σ') ->
  config (bind m k σ).2 = config σ.
Proof.
  unfold bind. destruct (m σ) as [a σ'] eqn:E. simpl.
  intros <- Hk. apply Hk.
Qed.

Lemma Apply_config ps σ : config (Apply ps σ).2 = config σ.
Proof.
  unfold Apply, SetMountExcludes, SetVendorIncludes, SetVendorExcludes,
    SetDeviceIncludes, SetDeviceExcludes.
  do 4 (apply bind_config;
          [apply writeExclude_config || apply writeInclude_config
          |intros; cbv beta]).
  apply writeExclude_config.
Qed.

Lemma readBack_config σ σ' :
  config σ = config σ' -> (readBack σ).1 = (readBack σ').1.
Proof.
  intros Hc. unfold readBack, MountExcludes, VendorIncludes, VendorExcludes,
    DeviceIncludes, DeviceExcludes, bind, ret.
  repeat match goal with
  | |- context [readExclude ?k ?s] =>
      let H1 := fresh in let H2 := fresh in
      destruct (readExclude_config k s) as [H1 H2];
      destruct (readExclude k s) as [? ?]; cbn [fst snd] in H1, H2; subst
  | |- context [readInclude ?k ?s] =>
      let H1 := fresh in let H2 := fresh in
      destruct (readInclude_config k s) as [H1 H2];
      destruct (readInclude k s) as [? ?]; cbn [fst snd] in H1, H2; subst
  end.
  cbn [fst]. congruence.
Qed.

(** C10 (the code departs from it). Whatever the resource, Apply leaves
    the configuration as it was, because every setter writes to the copy
    of the filter that getFilter returns the address of; so the five
    read-backs after Apply on DefaultNDMConfig() are the defaults (and
    the one empty string of an empty include filter), not the lists of
    the resource. *)
Theorem Apply_writes_to_copies (ps : PersistentStorageV1) :
  config (Apply ps (initial DefaultNDMConfig)).2 = DefaultNDMConfig
  /\ (readBack (Apply ps (initial DefaultNDMConfig)).2).1
     = [ defaultMountExcludes; [""]; defaultVendorExcludes; [""];
         defaultDeviceExcludes ].
Proof.
  split; [apply Apply_config|].
  rewrite (readBack_config _ (initial DefaultNDMConfig))
    by apply Apply_config.
  reflexivity.
Qed.

(** A resource with five non-empty, comma-free filter lists that the
    read-backs do not return. *)
Example Apply_round_trip_fails :
  let ps := NewPersistentStorage
              {| OpenEBS_ :=
                   {| Filters :=
                        {| MountPoints :=
                             {| Include := []; Exclude := ["/data"] |};
                           Vendors :=
                             {| Include := ["ACME"]; Exclude := ["OTHER"] |};
                           Devices :=
                             {| Include := ["/dev/sdb"];
                                Exclude := ["/dev/sda"] |} |} |} |} in
  requested ps
  = [ ["/data"]; ["ACME"]; ["OTHER"]; ["/dev/sdb"]; ["/dev/sda"] ]
  /\ (readBack (Apply ps (initial DefaultNDMConfig)).2).1
     = [ ["/"; "/etc/hosts"; "/boot"]; [""]; ["CLOUDBYT"; "OpenEBS"]; [""];
         ["loop"; "/dev/fd0"; "/dev/sr0"; "/dev/ram"; "/dev/dm-"; "/dev/md"] ]
  /\ (readBack (Apply ps (initial DefaultNDMConfig)).2).1 <> requested ps.
Proof. by vm_compute. Qed.

End NDMConfigFacts.

(** ** updateCommandWithFlags *)

Section CommandLine.

Import kingpin cli.

Implicit Types (l stale : list flag) (s : Slice) (Name : string).

(** Iterations that meet no flag of the name leave the slice alone. *)
Lemma rangeFlagsToAdd_no_match Name n : forall i s,
  (forall j f, i <= j < i + n -> array s !! j = Some f -> name f <> Name) ->
  i + n <= cap s ->
  rangeFlagsToAdd Name n i s = Some s.
Proof.
  induction n as [|n IH]; intros i s Hne Hcap; [done|].
  simpl. destruct (lookup_lt_is_Some_2 (array s) i) as [f Hf];
    [unfold cap in Hcap; lia|].
  rewrite Hf. simpl.
  assert (String.eqb Name (name f) = false) as ->.
  { apply String.eqb_neq. intros E. apply (Hne i f); [lia | done | done]. }
  apply IH; [|lia]. intros j g Hj. apply Hne. lia.
Qed.

(** The iterations can be run in two parts. *)
Lemma rangeFlagsToAdd_split Name a b : forall i s,
  rangeFlagsToAdd Name (a + b) i s
  = rangeFlagsToAdd Name a i s ≫= rangeFlagsToAdd Name b (i + a).
Proof.
  induction a as [|a IH]; intros i s; simpl.
  - by rewrite Nat.add_0_r.
  - destruct (array s !! i) as [f|]; simpl; [|done].
    replace (i + S a) with (S i + a) by lia.
    destruct (String.eqb Name (name f)); [|apply IH].
    destruct (removeAt i s) as [s'|]; simpl; [apply IH|done].
Qed.

Lemma filter_all {A} (P : A -> Prop) `{!forall x, Decision (P x)}
    (l : list A) :
  (forall x, x ∈ l -> P x) -> filter P l = l.
Proof.
  induction l as [|x l IH]; intros Hall; [done|].
  rewrite filter_cons_True by (apply Hall; left).
  f_equal. apply IH. intros y Hy. apply Hall. by right.
Qed.

(** Removing the flag at the end of [l1], in place. *)
Lemma removeAt_middle l1 f l2 stale :
  removeAt (length l1)
    {| array := l1 ++ f :: l2 ++ stale; len := length (l1 ++ f :: l2) |}
  = Some {| array := (l1 ++ l2) ++ drop (length l2) (f :: l2 ++ stale);
            len := length (l1 ++ l2) |}.
Proof.
  unfold removeAt, cap. cbn [array len].
  rewrite !length_app. cbn [length]. rewrite length_app.
  rewrite decide_True by lia.
  assert (forall a a' n n', a = a' -> n = n' ->
            Some {| array := a; len := n |} = Some {| array := a'; len := n' |})
    as Heq by (by intros ???? -> ->).
  apply Heq; [|lia].
  rewrite take_app_length.
  replace (length l1 + 1) with (length l1 + 1 + 0) by lia.
  replace (length l1 + S (length l2) - (length l1 + 1 + 0))
    with (length l2) by lia.
  replace (length l1 + S (length l2) - 1) with (length l1 + length l2)
    by lia.
  rewrite <- Nat.add_assoc, !drop_app_add. cbn [drop Nat.add].
  rewrite drop_0, take_app_length.
  by rewrite <- app_assoc.
Qed.

(** With pairwise distinct names among the requested flags, the loop for
    a flag clause removes the requested flag of that name, and nothing
    else. *)
Lemma rangeFlagsToAdd_removes Name l stale :
  NoDup (name <$> l) ->
  exists stale',
    rangeFlagsToAdd Name (length l) 0
      {| array := l ++ stale; len := length l |}
    = Some {| array := filter (fun f => name f <> Name) l ++ stale';
              len := length (filter (fun f => name f <> Name) l) |}.
Proof.
  intros Hnd. destruct (decide (Name ∈ name <$> l)) as [Hin|Hout].
  - apply list_elem_of_fmap in Hin as (f & -> & Hf).
    apply list_elem_of_split in Hf as (l1 & l2 & ->).
    rewrite fmap_app, fmap_cons in Hnd.
    apply NoDup_app in Hnd as (_ & H1 & H2).
    apply NoDup_cons in H2 as [H2 _].
    assert (forall g, g ∈ l1 -> name g <> name f) as Hl1.
    { intros g Hg E. apply (H1 (name g)); [by apply list_elem_of_fmap_2|].
      rewrite E. left. }
    assert (forall g, g ∈ l2 -> name g <> name f) as Hl2.
    { intros g Hg E. apply H2. rewrite <- E. by apply list_elem_of_fmap_2. }
    exists (drop (length l2) (f :: l2 ++ stale)).
    rewrite filter_app, filter_cons_False by (intros H; by apply H).
    rewrite !filter_all by done.
    rewrite length_app at 1. rewrite rangeFlagsToAdd_split.
    rewrite rangeFlagsToAdd_no_match; cycle 1.
    { cbn [array]. intros j g Hj Hg. apply Hl1.
      rewrite <- app_assoc, lookup_app_l in Hg by lia.
      by eapply list_elem_of_lookup_2. }
    { unfold cap. cbn [array]. rewrite !length_app. lia. }
    cbn [mbind option_bind length]. cbn [rangeFlagsToAdd array].
    rewrite <- app_assoc. cbn [app].
    rewrite Nat.add_0_l, list_lookup_middle by done.
    cbn [mbind option_bind]. rewrite String.eqb_refl.
    rewrite removeAt_middle. cbn [mbind option_bind].
    apply rangeFlagsToAdd_no_match.
    + cbn [array]. intros j g Hj Hg. apply Hl2.
      rewrite <- app_assoc, lookup_app_r in Hg by lia.
      destruct (decide (j - length l1 < length l2)) as [Hlt|Hge].
      * rewrite lookup_app_l in Hg by done.
        by eapply list_elem_of_lookup_2.
      * rewrite lookup_app_r, lookup_drop in Hg by lia.
        replace (length l2 + (j - length l1 - length l2)) with
          (S (length l2 - 1)) in Hg by lia.
        change ((f :: l2 ++ stale) !! S (length l2 - 1))
          with ((l2 ++ stale) !! (length l2 - 1)) in Hg.
        rewrite lookup_app_l in Hg by lia.
        by eapply list_elem_of_lookup_2.
    + unfold cap. cbn [array]. rewrite !length_app, length_drop.
      cbn [length]. rewrite length_app. lia.
  - exists stale. rewrite filter_all.
    + apply rangeFlagsToAdd_no_match.
      * cbn [array]. intros j g Hj Hg E. apply Hout. rewrite <- E.
        rewrite lookup_app_l in Hg by lia.
        apply list_elem_of_fmap_2. by eapply list_elem_of_lookup_2.
      * unfold cap. cbn [array]. rewrite length_app. lia.
    + intros g Hg E. apply Hout. rewrite <- E. by apply list_elem_of_fmap_2.
Qed.

Lemma notPresent_cons_flag Name b v rest l :
  notPresent ({| Clause_ := FlagClause Name b; Value := v |} :: rest) l
  = notPresent rest (filter (fun f => name f <> Name) l).
Proof.
  unfold notPresent. cbn [flagNames Clause_].
  rewrite list_filter_filter. apply list_filter_iff.
  intros f. rewrite not_elem_of_cons. tauto.
Qed.

Lemma NoDup_names_filter (P : flag -> Prop) `{!forall f, Decision (P f)} l :
  NoDup (name <$> l) -> NoDup (name <$> filter P l).
Proof.
  intros Hnd. eapply sublist_NoDup; [done|].
  apply fmap_sublist, sublist_filter.
Qed.

(** With pairwise distinct requested names and the values kingpin sets,
    the loop over the elements renders them in order and leaves in
    flagsToAdd the requested flags whose name is not on the line. *)
Lemma rangeElements_renders els : forall args l stale,
  forallb hasValue els = true ->
  NoDup (name <$> l) ->
  exists stale',
    rangeElements els args {| array := l ++ stale; len := length l |}
    = Some (args ++ flat_map renderElement els,
            {| array := notPresent els l ++ stale';
               len := length (notPresent els l) |}).
Proof.
  induction els as [|[c v] els IH]; intros args l stale Hv Hnd.
  - exists stale. cbn. rewrite app_nil_r. unfold notPresent. cbn.
    by rewrite filter_all by (intros; apply not_elem_of_nil).
  - cbn [forallb] in Hv. apply andb_true_iff in Hv as [Hv1 Hv].
    destruct c as [|Name b|cmd]; cbn [rangeElements Clause_ Value].
    + unfold hasValue in Hv1. cbn in Hv1. apply bool_decide_eq_true in Hv1.
      destruct v as [v|]; [|done]. cbn [mbind option_bind].
      destruct (IH (args ++ [strconv.Quote v]) l stale Hv Hnd)
        as [stale' ->].
      exists stale'. cbn [flat_map renderElement Clause_ Value default].
      by rewrite <- app_assoc.
    + destruct (rangeFlagsToAdd_removes Name l stale Hnd) as [stale1 Hrm].
      cbn [len]. rewrite notPresent_cons_flag.
      destruct b.
      * cbn [mbind option_bind]. rewrite Hrm. cbn [mbind option_bind].
        destruct (IH (args ++ ["--" +:+ Name])
                    (filter (fun f => name f <> Name) l) stale1 Hv
                    (NoDup_names_filter _ _ Hnd)) as [stale' ->].
        exists stale'. cbn [flat_map renderElement Clause_].
        by rewrite <- app_assoc.
      * unfold hasValue in Hv1. cbn in Hv1. apply bool_decide_eq_true in Hv1.
        destruct v as [v|]; [|done]. cbn [mbind option_bind].
        rewrite Hrm. cbn [mbind option_bind].
        destruct (IH (args ++ ["--" +:+ Name; strconv.Quote v])
                    (filter (fun f => name f <> Name) l) stale1 Hv
                    (NoDup_names_filter _ _ Hnd)) as [stale' ->].
        exists stale'. cbn [flat_map renderElement Clause_ Value default].
        by rewrite <- app_assoc.
    + destruct (IH args l stale Hv Hnd) as [stale' ->].
      exists stale'. done.
Qed.

(** C5 (as the code has it). When the line parses, a command is
    selected, the arguments and the non-boolean flags carry their values
    and the requested flags have pairwise distinct names,
    updateCommandWithFlags returns the full command, then the elements of
    the line rendered in order (an argument as its quoted value, a
    boolean flag of the line bare, any other flag of the line as its name
    and its quoted value), then every requested flag whose name is on no
    flag of the line as its name followed by its quoted value: a
    requested flag has a name and a value only, so none is emitted
    bare. *)
Theorem updateCommandWithFlags_appends_name_and_quoted_value
    (command : list string) (parser : ArgsParser) (ctx : ParseContext)
    (selected : CmdClause) (flagsToAdd : list flag) :
  parser command = inl ctx ->
  SelectedCommand ctx = Some selected ->
  forallb hasValue (Elements ctx) = true ->
  NoDup (name <$> flagsToAdd) ->
  updateCommandWithFlags command parser flagsToAdd
  = Returned
      (FullCommand selected
         :: flat_map renderElement (Elements ctx)
         ++ flat_map (fun f => ["--" +:+ name f; strconv.Quote (value f)])
              (notPresent (Elements ctx) flagsToAdd)).
Proof.
  intros Hparse Hsel Hval Hnd. unfold updateCommandWithFlags.
  rewrite Hparse, Hsel. unfold sliceOf.
  rewrite <- (app_nil_r flagsToAdd) at 1.
  destruct (rangeElements_renders (Elements ctx) [] flagsToAdd [] Hval Hnd)
    as [stale' ->].
  unfold elements. cbn [array len]. by rewrite take_app_length.
Qed.

(** The scenario of the specification: the requested flag "insecure"
    comes out with its quoted value. *)
Lemma updateCommandWithFlags_insecure_scenario :
  updateCommandWithFlags ["install"; "--token"; "abc"] installParser
    [ {| name := "insecure"; value := "true" |} ]
  = Returned
      [ "install"; "--token"; strconv.Quote "abc";
        "--insecure"; strconv.Quote "true" ].
Proof.
  apply (updateCommandWithFlags_appends_name_and_quoted_value
           ["install"; "--token"; "abc"] installParser installContext
           installCommand [ {| name := "insecure"; value := "true" |} ]).
  - reflexivity.
  - reflexivity.
  - reflexivity.
  - simpl. apply NoDup_singleton.
Defined.

(** C5 as stated does not hold: on the scenario the result is not the
    line that ends with the bare flag. *)
Lemma updateCommandWithFlags_added_flag_not_bare :
  updateCommandWithFlags ["install"; "--token"; "abc"] installParser
    [ {| name := "insecure"; value := "true" |} ]
  <> Returned [ "install"; "--token"; strconv.Quote "abc"; "--insecure" ].
Proof. vm_compute. discriminate. Qed.

(** C8 (the code departs from it). A flag requested twice in a row, whose
    name is on the original line, is still appended: removing the first
    request moves the second one into the place the loop has just left,
    so it is never compared. Requested twice with nothing after it, the
    second removal slices out of range and the call panics. *)
Theorem updateCommandWithFlags_repeated_request_appended :
  updateCommandWithFlags ["install"; "--token"; "abc"] installParser
    [ {| name := "token"; value := "x" |};
      {| name := "token"; value := "y" |};
      {| name := "advertise-addr"; value := "10.0.0.1" |} ]
  = Returned
      [ "install"; "--token"; strconv.Quote "abc";
        "--token"; strconv.Quote "y";
        "--advertise-addr"; strconv.Quote "10.0.0.1" ]
  /\ In "token" (flagNames (Elements installContext))
  /\ updateCommandWithFlags ["install"; "--token"; "abc"] installParser
       [ {| name := "token"; value := "x" |};
         {| name := "token"; value := "y" |} ]
     = Panicked.
Proof. vm_compute. auto. Qed.

End CommandLine.

(** ** findServer and findLocalServer *)

Section FindServer.

Import cli.

Lemma matchesToken_iff server tokens :
  matchesToken server tokens = true <->
  exists token, token ∈ tokens /\ answersTo server token.
Proof.
  unfold answersTo. induction tokens as [|t tokens IH]; simpl.
  - split; [discriminate|]. intros (? & H & _). by apply elem_of_nil in H.
  - destruct (String.eqb t "") eqn:Hempty.
    + apply String.eqb_eq in Hempty. subst t. rewrite IH. split.
      * intros (token & Hin & H). exists token. split; [by right|done].
      * intros (token & Hin & Hne & H).
        apply elem_of_cons in Hin as [->|Hin]; [done|]. by exists token.
    + apply String.eqb_neq in Hempty.
      destruct (String.eqb t (AdvertiseIP server)
                || String.eqb t (Hostname server)
                || String.eqb t (Nodename server)) eqn:Hany.
      * split; [|done]. intros _. exists t. split; [left|].
        split; [done|].
        rewrite !orb_true_iff, !String.eqb_eq in Hany. tauto.
      * rewrite IH. rewrite !orb_false_iff, !String.eqb_neq in Hany.
        split.
        -- intros (token & Hin & H). exists token. split; [by right|done].
        -- intros (token & Hin & Hne & H).
           apply elem_of_cons in Hin as [->|Hin]; [tauto|]. by exists token.
Qed.

Lemma findServerLoop_first servers tokens :
  match findServerLoop servers tokens with
  | Some server =>
      exists before after,
        servers = before ++ server :: after
        /\ matchesToken server tokens = true
        /\ Forall (fun s => matchesToken s tokens = false) before
  | None => Forall (fun s => matchesToken s tokens = false) servers
  end.
Proof.
  induction servers as [|s servers IH]; simpl; [constructor|].
  destruct (matchesToken s tokens) eqn:Hs.
  - exists [], servers. repeat split; [done|constructor].
  - destruct (findServerLoop servers tokens) as [server|].
    + destruct IH as (before & after & -> & Hm & Hb).
      exists (s :: before), after. repeat split; [done|by constructor].
    + by constructor.
Qed.

(** X1. findServer returns the first server, in the order of the cluster
    state, that answers to one of the tokens (a non-empty token equal to
    its advertise IP, hostname or node name): no server before it answers
    to any token; and it returns a not-found error exactly when no server
    answers to any token. The order of the servers decides, not the order
    of the tokens. *)
Theorem findServer_first_answering (servers : list Server)
    (tokens : list string) :
  match findServer servers tokens with
  | inl server =>
      exists before after,
        servers = before ++ server :: after
        /\ (exists token, token ∈ tokens /\ answersTo server token)
        /\ Forall (fun s => ~ exists token,
                              token ∈ tokens /\ answersTo s token) before
  | inr err =>
      trace.IsNotFound (Some err) = true
      /\ Forall (fun s => ~ exists token,
                            token ∈ tokens /\ answersTo s token) servers
  end.
Proof.
  unfold findServer. pose proof (findServerLoop_first servers tokens) as H.
  assert (forall l, Forall (fun s => matchesToken s tokens = false) l ->
            Forall (fun s => ~ exists token,
                                token ∈ tokens /\ answersTo s token) l)
    as Hconv.
  { intros l Hl. eapply Forall_impl; [exact Hl|]. intros s Hs Hex.
    apply matchesToken_iff in Hex. congruence. }
  destruct (findServerLoop servers tokens) as [server|].
  - destruct H as (before & after & -> & Hm & Hb).
    exists before, after. repeat split; [by apply matchesToken_iff|auto].
  - split; [reflexivity|auto].
Qed.

(** X2. Empty tokens take no part in the search: findServer finds the
    same server with the empty tokens removed, so a server with an empty
    hostname or node name is not found through an empty token. *)
Theorem findServer_skips_empty_tokens (servers : list Server)
    (tokens : list string) :
  findServerLoop servers tokens
  = findServerLoop servers (filter (fun t => t <> "") tokens)
  /\ findServerLoop servers (replicate (length tokens) "") = None.
Proof.
  assert (forall s, matchesToken s tokens
                    = matchesToken s (filter (fun t => t <> "") tokens))
    as Hm.
  { intros s. induction tokens as [|t tokens IH]; [done|].
    rewrite filter_cons. simpl. destruct (String.eqb t "") eqn:E.
    - apply String.eqb_eq in E. by rewrite decide_False by tauto.
    - apply String.eqb_neq in E. rewrite decide_True by done.
      simpl. rewrite (proj2 (String.eqb_neq _ _) E). by rewrite IH. }
  split.
  - induction servers as [|s servers IH]; [done|]. simpl.
    by rewrite <- Hm, IH.
  - assert (forall s n, matchesToken s (replicate n "") = false) as Hr.
    { intros s n. induction n; [done|]. done. }
    induction servers as [|s servers IH]; [done|]. simpl. by rewrite Hr.
Qed.

(** X3. findLocalServer returns the wrapped error of listing the network
    interfaces; with no interface, or when no server answers to the IPv4
    address of an interface, a not-found error; otherwise a server of the
    cluster state that answers to the (non-empty) IPv4 address of one of
    the interfaces. *)
Theorem findLocalServer_by_interface_address
    (ifaces : list NetworkInterface) (failure : option error)
    (servers : list Server) :
  match failure with
  | Some err =>
      findLocalServer (ifaces, failure) servers = inr (trace.Wrap' err)
  | None =>
      match findLocalServer (ifaces, None) servers with
      | inl server =>
          server ∈ servers
          /\ exists iface, iface ∈ ifaces /\ answersTo server (IPv4 iface)
      | inr err => trace.IsNotFound (Some err) = true
      end
  end.
Proof.
  destruct failure as [err|]; [done|]. unfold findLocalServer.
  destruct (decide (length ifaces = 0)); [done|].
  pose proof (findServer_first_answering servers (IPv4 <$> ifaces)) as H.
  destruct (findServer servers (IPv4 <$> ifaces)) as [server|err].
  - destruct H as (before & after & -> & (token & Hin & Hans) & _).
    split; [apply elem_of_app; right; left|].
    apply list_elem_of_fmap in Hin as (iface & -> & Hin). by exists iface.
  - destruct H as [H _]. unfold trace.IsNotFound in *. simpl in *.
    by rewrite Unwrap'_Wrap'.
Qed.

End FindServer.

(** ** ConfigureNoProxy *)

Section NoProxy.

Import cli.

Lemma length_zero_empty (v : string) : String.length v = 0 <-> v = "".
Proof. destruct v; simpl; split; (done || discriminate). Qed.

(** X4. ConfigureNoProxy writes exactly one variable. With NO_PROXY and
    no_proxy both unset or empty it sets NO_PROXY to "0.0.0.0/0,.local";
    otherwise it appends ",0.0.0.0/0,.local" to one variable that is set:
    to the only one, or, with both set, to the one the map iteration
    yields first. *)
Theorem ConfigureNoProxy_writes_one_variable (upperFirst : bool)
    (env : gmap string string) :
  let upper := Getenv env "NO_PROXY" in
  let lower := Getenv env "no_proxy" in
  (upper = "" /\ lower = ""
   /\ ConfigureNoProxy upperFirst env
      = <["NO_PROXY" := "0.0.0.0/0,.local"]> env)
  \/ (upper <> "" /\ (lower = "" \/ upperFirst = true)
      /\ ConfigureNoProxy upperFirst env
         = <["NO_PROXY" := upper +:+ ",0.0.0.0/0,.local"]> env)
  \/ (lower <> "" /\ (upper = "" \/ upperFirst = false)
      /\ ConfigureNoProxy upperFirst env
         = <["no_proxy" := lower +:+ ",0.0.0.0/0,.local"]> env).
Proof.
  intros upper lower. unfold ConfigureNoProxy. fold upper lower.
  destruct (decide (upper = "")) as [Hu|Hu];
    destruct (decide (lower = "")) as [Hl|Hl];
    destruct upperFirst; cbn [rangeProxy];
    repeat match goal with
    | |- context [decide (String.length ?v ≠ 0)] =>
        first [ rewrite (decide_True (P := String.length v ≠ 0))
                  by (by rewrite length_zero_empty)
              | rewrite (decide_False (P := String.length v ≠ 0))
                  by (rewrite length_zero_empty; tauto) ]
    end;
    unfold Setenv; cbn [strings.Join]; tauto.
Qed.

(** X5. ConfigureNoProxy leaves every other variable of the environment
    as it was; and when both variables are set and the map iteration
    yields no_proxy first, NO_PROXY itself is left without the added
    entries. *)
Theorem ConfigureNoProxy_leaves_the_rest (upperFirst : bool)
    (env : gmap string string) (key : string) :
  key <> "NO_PROXY" -> key <> "no_proxy" ->
  ConfigureNoProxy upperFirst env !! key = env !! key
  /\ (Getenv env "NO_PROXY" <> "" -> Getenv env "no_proxy" <> "" ->
      Getenv (ConfigureNoProxy false env) "NO_PROXY"
      = Getenv env "NO_PROXY").
Proof.
  intros Hk1 Hk2. split.
  - destruct (ConfigureNoProxy_writes_one_variable upperFirst env)
      as [(_ & _ & ->)|[(_ & _ & ->)|(_ & _ & ->)]];
      by rewrite lookup_insert_ne.
  - intros Hu Hl.
    destruct (ConfigureNoProxy_writes_one_variable false env)
      as [(E & _ & _)|[(_ & [E|E] & _)|(_ & _ & ->)]]; try done.
    unfold Getenv. by rewrite lookup_insert_ne.
Qed.

(** An environment with both variables set, and another variable. *)
Lemma ConfigureNoProxy_leaves_the_rest_witness :
  let env : gmap string string :=
    <["NO_PROXY" := "10.0.0.0/8"]>
      (<["no_proxy" := "localhost"]> (<["HOME" := "/root"]> ∅)) in
  ConfigureNoProxy false env !! "HOME" = env !! "HOME"
  /\ Getenv (ConfigureNoProxy false env) "NO_PROXY" = "10.0.0.0/8".
Proof.
  intros env.
  destruct (ConfigureNoProxy_leaves_the_rest false env "HOME")
    as [H1 H2]; [done | done |].
  split; [exact H1|]. rewrite H2; [reflexivity | | ]; by vm_compute.
Defined.

End NoProxy.

(** ** isUpdateCommand and isExpandCommand *)

Section Commands.

Import cli.

Lemma caseOf_In cmd values : caseOf cmd values = true <-> In cmd values.
Proof.
  induction values as [|v values IH]; simpl; [split; [discriminate|done]|].
  rewrite orb_true_iff, String.eqb_eq, IH. split; intros [H|H]; auto.
Qed.

(** X6. Every expand command other than the auto-join command is an
    update command as well: the plan commands satisfy both predicates. *)
Theorem isExpandCommand_is_update_or_autojoin (g : Application)
    (cmd : string) :
  isExpandCommand g cmd = true ->
  cmd = AutoJoinCmd g \/ isUpdateCommand g cmd = true.
Proof.
  unfold isExpandCommand, isUpdateCommand.
  destruct (caseOf cmd [AutoJoinCmd g; _; _; _; _; _; _]) eqn:He;
    [intros _|discriminate].
  apply caseOf_In in He. destruct He as [He|He]; [by left|right].
  assert (caseOf cmd [ PlanCmd g; PlanDisplayCmd g; PlanExecuteCmd g;
                       PlanRollbackCmd g; PlanResumeCmd g;
                       PlanCompleteCmd g; UpdatePlanInitCmd g;
                       UpdateTriggerCmd g; UpgradeCmd g ] = true) as ->;
    [|done].
  apply caseOf_In. simpl in *. tauto.
Qed.

End Commands.
